(** * ConnectFourGame: a shallow embedding of src/town/games/ConnectFourGame.ts

    The class is a stateful object whose methods throw.  Every method is
    embedded as a computation in a small state-and-exception monad whose
    state is the game object itself, so that what a method has already
    written when it throws stays visible.  The first half of the file holds
    the definitions: the data model, the monad, the methods, the vocabulary
    of the specification, and the closed forms and invariants the proofs
    use.  The second half holds the lemmas, and the theorems C1 to C10 on
    what the specification states about the class. *)

From Stdlib Require Import ZArith.
From stdpp Require Import base tactics option list strings.

(** ** Data model (types/CoveyTownSocket) *)

Definition PlayerID := string.

Inductive ConnectFourColor := Red | Yellow.

Inductive GameStatus :=
  | IN_PROGRESS
  | WAITING_TO_START
  | OVER
  | WAITING_FOR_PLAYERS.

#[global] Instance ConnectFourColor_eq_dec : EqDecision ConnectFourColor.
Proof. solve_decision. Defined.

#[global] Instance GameStatus_eq_dec : EqDecision GameStatus.
Proof. solve_decision. Defined.

(** [col] and [row] are JS numbers; the index types [ConnectFourColIndex]
    (0..6) and [ConnectFourRowIndex] (0..5) only exist at compile time, and
    the class re-checks the range at run time, so they are integers here. *)
Record ConnectFourMove := mkMove {
  gamePiece : ConnectFourColor;
  col : Z;
  row : Z;
}.

Record GameMove := mkGameMove {
  playerID : PlayerID;
  gameID : string;
  move : ConnectFourMove;
}.

(** An optional field is [None] when it is [undefined]. *)
Record ConnectFourGameState := mkState {
  moves : list ConnectFourMove;
  status : GameStatus;
  firstPlayer : ConnectFourColor;
  red : option PlayerID;
  yellow : option PlayerID;
  redReady : option bool;
  yellowReady : option bool;
  winner : option PlayerID;
}.

Module Player.
Record t := mk { id : PlayerID }.
End Player.

(** The strings ['_'], ['R'] and ['Y'] of [_board]. *)
Inductive Cell := CellEmpty | CellR | CellY.

#[global] Instance Cell_eq_dec : EqDecision Cell.
Proof. solve_decision. Defined.

Abbreviation Board := (list (list Cell)).

(** The object: its [state], the private fields [_lastGame] and [_board],
    and [_players], the occupants, a field the base class [Game] declares
    and maintains (see [join] and [leave] below). *)
#[warnings="-register-all"]
Inductive ConnectFourGame := mkGame {
  state : ConnectFourGameState;
  _lastGame : option ConnectFourGame;
  _board : Board;
  _players : list Player.t;
}.

(** Field assignments [this.state.f = v]. *)
Definition set_moves (v : list ConnectFourMove) (s : ConnectFourGameState) :=
  mkState v (status s) (firstPlayer s) (red s) (yellow s) (redReady s) (yellowReady s) (winner s).
Definition set_status (v : GameStatus) (s : ConnectFourGameState) :=
  mkState (moves s) v (firstPlayer s) (red s) (yellow s) (redReady s) (yellowReady s) (winner s).
Definition set_firstPlayer (v : ConnectFourColor) (s : ConnectFourGameState) :=
  mkState (moves s) (status s) v (red s) (yellow s) (redReady s) (yellowReady s) (winner s).
Definition set_red (v : option PlayerID) (s : ConnectFourGameState) :=
  mkState (moves s) (status s) (firstPlayer s) v (yellow s) (redReady s) (yellowReady s) (winner s).
Definition set_yellow (v : option PlayerID) (s : ConnectFourGameState) :=
  mkState (moves s) (status s) (firstPlayer s) (red s) v (redReady s) (yellowReady s) (winner s).
Definition set_redReady (v : option bool) (s : ConnectFourGameState) :=
  mkState (moves s) (status s) (firstPlayer s) (red s) (yellow s) v (yellowReady s) (winner s).
Definition set_yellowReady (v : option bool) (s : ConnectFourGameState) :=
  mkState (moves s) (status s) (firstPlayer s) (red s) (yellow s) (redReady s) v (winner s).
Definition set_winner (v : option PlayerID) (s : ConnectFourGameState) :=
  mkState (moves s) (status s) (firstPlayer s) (red s) (yellow s) (redReady s) (yellowReady s) v.

Definition with_state (s : ConnectFourGameState) (g : ConnectFourGame) :=
  mkGame s (_lastGame g) (_board g) (_players g).
Definition with_board (b : Board) (g : ConnectFourGame) :=
  mkGame (state g) (_lastGame g) b (_players g).
Definition with_players (ps : list Player.t) (g : ConnectFourGame) :=
  mkGame (state g) (_lastGame g) (_board g) ps.
Definition with_lastGame (l : option ConnectFourGame) (g : ConnectFourGame) :=
  mkGame (state g) l (_board g) (_players g).

(** JS truthiness of [string | undefined] and of [boolean | undefined]. *)
Definition truthy (o : option PlayerID) : bool :=
  match o with
  | Some s => bool_decide (s ≠ EmptyString)
  | None => false
  end.

Definition truthyb (o : option bool) : bool :=
  match o with
  | Some b => b
  | None => false
  end.

(** ** JS arrays

    [a[i]] is [undefined] ([None]) outside the array.  [a[i] = v] inside the
    array replaces the element.  Outside it a JS array grows (or gains a
    stray property for a negative index); the index types of a move exclude
    that, the model leaves the array as it is there, and every statement
    below about the board is made for logs within the index types.

    [_board] is a readonly field initialised with six rows, and no statement
    assigns to the outer array: [this._board[row]] is defined for the rows
    0..5, so the reads [board[row][col]] of the class at those rows never
    raise, and [board[row]?.[col]] and [board[row][col]] agree there. *)

Definition js_get {A} (a : list A) (i : Z) : option A :=
  if bool_decide (0 ≤ i)%Z then a !! Z.to_nat i else None.

Definition js_set {A} (a : list A) (i : Z) (v : A) : list A :=
  if bool_decide (0 ≤ i)%Z then <[Z.to_nat i := v]> a else a.

(** [board[r]?.[c]] *)
Definition cellAt (b : Board) (r c : Z) : option Cell :=
  row ← js_get b r; js_get row c.

Definition emptyBoard : Board :=
  replicate 6 (replicate 7 CellEmpty).

(** ** The monad *)

Inductive Message :=
  | PLAYER_ALREADY_IN_GAME_MESSAGE
  | GAME_FULL_MESSAGE
  | PLAYER_NOT_IN_GAME_MESSAGE
  | GAME_NOT_STARTABLE_MESSAGE
  | MOVE_NOT_YOUR_TURN_MESSAGE
  | BOARD_POSITION_NOT_VALID_MESSAGE
  | GAME_NOT_IN_PROGRESS_MESSAGE.

Inductive Error :=
  | InvalidParametersError (m : Message)
  | TypeError.

Inductive Completion (A : Type) :=
  | Normal (a : A)
  | Throw (e : Error).
Arguments Normal {A} a.
Arguments Throw {A} e.

(** What a call can touch: the receiver [this], and the objects it
    constructs with [new ConnectFourGame(...)]. *)
Record World := mkWorld {
  this : ConnectFourGame;
  constructed : list ConnectFourGame;
}.

Definition M (A : Type) : Type := World → Completion A * World.

Definition ret {A} (a : A) : M A := λ w, (Normal a, w).

Definition bind {A B} (m : M A) (k : A → M B) : M B :=
  λ w, match m w with
       | (Normal a, w') => k a w'
       | (Throw e, w') => (Throw e, w')
       end.

Definition throw {A} (e : Error) : M A := λ w, (Throw e, w).

Declare Scope js_scope.
Delimit Scope js_scope with js.
Notation "x <- m ;; k" := (bind m (λ x, k))
  (at level 100, m at next level, k at level 200, right associativity) : js_scope.
Notation "m ;;; k" := (bind m (λ _, k))
  (at level 100, k at level 200, right associativity) : js_scope.
Local Open Scope js_scope.

Definition getThis : M ConnectFourGame := λ w, (Normal (this w), w).
Definition getState : M ConnectFourGameState := λ w, (Normal (state (this w)), w).
Definition putState (s : ConnectFourGameState) : M unit :=
  λ w, (Normal tt, mkWorld (with_state s (this w)) (constructed w)).
(** [this.state.f = v] *)
Definition assign (f : ConnectFourGameState → ConnectFourGameState) : M unit :=
  λ w, (Normal tt, mkWorld (with_state (f (state (this w))) (this w)) (constructed w)).
Definition putBoard (b : Board) : M unit :=
  λ w, (Normal tt, mkWorld (with_board b (this w)) (constructed w)).
Definition putPlayers (ps : list Player.t) : M unit :=
  λ w, (Normal tt, mkWorld (with_players ps (this w)) (constructed w)).
Definition construct (g : ConnectFourGame) : M ConnectFourGame :=
  λ w, (Normal g, mkWorld (this w) (constructed w ++ [g])).

Definition skip : M unit := ret tt.

(** A call on receiver [g], starting with nothing constructed. *)
Definition call {A} (m : M A) (g : ConnectFourGame) : Completion A * World :=
  m (mkWorld g []).

(** ** The class *)

(** [new ConnectFourGame(priorGame?)] *)
Definition ConnectFourGame_new (priorGame : option ConnectFourGame) : ConnectFourGame :=
  mkGame
    (mkState [] WAITING_FOR_PLAYERS Red None None None None None)
    priorGame
    emptyBoard
    [].

(** [this._lastGame?.state.red] and its siblings. *)
Definition lastRed (g : ConnectFourGame) : option PlayerID :=
  l ← _lastGame g; red (state l).
Definition lastYellow (g : ConnectFourGame) : option PlayerID :=
  l ← _lastGame g; yellow (state l).
Definition lastFirstPlayer (g : ConnectFourGame) : option ConnectFourColor :=
  firstPlayer ∘ state <$> _lastGame g.

(** [this._lastGame && this._players.some(p => p.id ===
    this._lastGame?.state.red || p.id === this._lastGame?.state.yellow)] *)
Definition carriedOver (g : ConnectFourGame) : bool :=
  bool_decide (is_Some (_lastGame g))
  && existsb (λ p, bool_decide (Some (Player.id p) = lastRed g)
                   || bool_decide (Some (Player.id p) = lastYellow g))
       (_players g).

Definition startGame (player : Player.t) : M unit :=
  s <- getState ;;
  if bool_decide (status s ≠ WAITING_TO_START) then
    throw (InvalidParametersError GAME_NOT_STARTABLE_MESSAGE)
  else
  if bool_decide (red s ≠ Some (Player.id player))
     && bool_decide (yellow s ≠ Some (Player.id player)) then
    throw (InvalidParametersError PLAYER_NOT_IN_GAME_MESSAGE)
  else
  g <- getThis ;;
  (if bool_decide (red s = Some (Player.id player))
      || bool_decide (yellow s = Some (Player.id player)) then
     if carriedOver g then
       if bool_decide (lastFirstPlayer g = Some Red) then
         assign (set_firstPlayer Yellow)
       else
         assign (set_firstPlayer Red)
     else if negb (bool_decide (is_Some (_lastGame g))) then
       assign (set_firstPlayer Red)
     else skip
   else skip) ;;;
  s <- getState ;;
  (if bool_decide (red s = Some (Player.id player)) then
     assign (set_redReady (Some true))
   else if bool_decide (yellow s = Some (Player.id player)) then
     assign (set_yellowReady (Some true))
   else skip) ;;;
  s <- getState ;;
  if truthyb (yellowReady s) && truthyb (redReady s) then
    assign (set_status IN_PROGRESS)
  else skip.

Definition _join (player : Player.t) : M unit :=
  s <- getState ;;
  if bool_decide (red s = Some (Player.id player))
     || bool_decide (yellow s = Some (Player.id player)) then
    throw (InvalidParametersError PLAYER_ALREADY_IN_GAME_MESSAGE)
  else
  if truthy (red s) && truthy (yellow s) && bool_decide (red s ≠ yellow s) then
    throw (InvalidParametersError GAME_FULL_MESSAGE)
  else
  g <- getThis ;;
  (if bool_decide (is_Some (_lastGame g)) then
     if bool_decide (red s = None)
        && bool_decide (lastRed g = Some (Player.id player)) then
       assign (set_red (Some (Player.id player)))
     else if bool_decide (yellow s = None)
             && bool_decide (lastYellow g = Some (Player.id player)) then
       assign (set_yellow (Some (Player.id player)))
     else if bool_decide (red s ≠ None)
             && bool_decide (lastRed g = Some (Player.id player)) then
       assign (set_yellow (Some (Player.id player)))
     else if bool_decide (yellow s ≠ None)
             && bool_decide (lastYellow g = Some (Player.id player)) then
       assign (set_red (Some (Player.id player)))
     else if bool_decide (red s = None) then
       assign (set_red (Some (Player.id player)))
     else
       assign (set_yellow (Some (Player.id player)))
   else if negb (bool_decide (is_Some (_lastGame g))) then
     if bool_decide (red s = None) then
       assign (set_red (Some (Player.id player)))
     else
       assign (set_yellow (Some (Player.id player)))
   else skip) ;;;
  s <- getState ;;
  if bool_decide (red s ≠ None) && bool_decide (yellow s ≠ None) then
    assign (set_status WAITING_TO_START)
  else skip.

(** [new ConnectFourGame()]: no prior game is passed. *)
Definition _createNewGame : M ConnectFourGame :=
  newGame <- construct (ConnectFourGame_new None) ;;
  ret newGame.

Definition _leave (player : Player.t) : M unit :=
  s <- getState ;;
  if bool_decide (red s ≠ Some (Player.id player))
     && bool_decide (yellow s ≠ Some (Player.id player)) then
    throw (InvalidParametersError PLAYER_NOT_IN_GAME_MESSAGE)
  else
  (if bool_decide (red s = Some (Player.id player))
      && bool_decide (status s = IN_PROGRESS) then
     assign (set_winner (yellow s)) ;;;
     assign (set_status OVER)
   else if bool_decide (yellow s = Some (Player.id player))
           && bool_decide (status s = IN_PROGRESS) then
     assign (set_winner (red s)) ;;;
     assign (set_status OVER)
   else skip) ;;;
  s <- getState ;;
  if (bool_decide (red s = Some (Player.id player))
      || bool_decide (yellow s = Some (Player.id player)))
     && bool_decide (status s = OVER) then
    (* return; *)
    skip
  else
  (if bool_decide (red s = Some (Player.id player)) then
     if bool_decide (status s = WAITING_TO_START) then
       assign (set_red None) ;;;
       assign (set_redReady (Some false)) ;;;
       assign (set_status WAITING_FOR_PLAYERS)
     else skip
   else if bool_decide (yellow s = Some (Player.id player)) then
     if bool_decide (status s = WAITING_TO_START) then
       assign (set_yellow None) ;;;
       assign (set_yellowReady (Some false)) ;;;
       assign (set_status WAITING_FOR_PLAYERS)
     else skip
   else skip) ;;;
  s <- getState ;;
  (if bool_decide (red s = Some (Player.id player))
      && bool_decide (status s = WAITING_TO_START) then
     if bool_decide (status s = WAITING_TO_START) then
       if truthy (red s) && truthy (yellow s) then
         if bool_decide (yellow s = Some (Player.id player)) then
           assign (set_firstPlayer Red)
         else skip
       else skip
     else skip
   else skip) ;;;
  s <- getState ;;
  (if bool_decide (red s = Some (Player.id player)) then
     if bool_decide (status s = WAITING_FOR_PLAYERS) then
       assign (set_red None) ;;;
       assign (set_redReady (Some false)) ;;;
       assign (set_status WAITING_FOR_PLAYERS)
     else skip
   else if bool_decide (yellow s = Some (Player.id player)) then
     if bool_decide (status s = WAITING_FOR_PLAYERS) then
       assign (set_yellow None) ;;;
       assign (set_yellowReady (Some false)) ;;;
       assign (set_status WAITING_FOR_PLAYERS)
     else skip
   else skip) ;;;
  s <- getState ;;
  if bool_decide (status s = OVER) then
    _createNewGame ;;; skip
  else skip.

Definition _getOtherPlayerColor (playerColor : ConnectFourColor) : ConnectFourColor :=
  if bool_decide (playerColor = Red) then Yellow else Red.

Definition _isTurn (g : ConnectFourGame) (move : GameMove) : bool :=
  let currentPlayerIndex := (length (moves (state g)) mod 2)%nat in
  let currentPlayer :=
    if bool_decide (currentPlayerIndex = 0%nat)
    then firstPlayer (state g)
    else _getOtherPlayerColor (firstPlayer (state g)) in
  if bool_decide (currentPlayer = Red)
     && bool_decide (Some (playerID move) = red (state g)) then true
  else if bool_decide (currentPlayer = Yellow)
          && bool_decide (Some (playerID move) = yellow (state g)) then true
  else false.

(** [_board] is a readonly field holding six rows, and nothing assigns to
    the outer array, so [this._board[row]] is defined for the rows 0..5 this
    method reads after its range check. *)
Definition _checkValidBoardPosition (g : ConnectFourGame) (mv : GameMove) : bool :=
  let row := row (move mv) in
  let col := col (move mv) in
  if bool_decide (col < 0)%Z || bool_decide (col >= 7)%Z
     || bool_decide (row < 0)%Z || bool_decide (row >= 6)%Z then false
  else if bool_decide (cellAt (_board g) row col ≠ Some CellEmpty) then false
  else if bool_decide (row ≠ 5%Z)
          && bool_decide (cellAt (_board g) (row + 1) col = Some CellEmpty) then false
  else true.

Definition _checkValidMove (mv : GameMove) : M unit :=
  g <- getThis ;;
  let s := state g in
  if bool_decide (status s ≠ IN_PROGRESS) then
    throw (InvalidParametersError GAME_NOT_IN_PROGRESS_MESSAGE)
  else
  if bool_decide (red s ≠ Some (playerID mv))
     && bool_decide (yellow s ≠ Some (playerID mv)) then
    throw (InvalidParametersError PLAYER_NOT_IN_GAME_MESSAGE)
  else
  if bool_decide (status s = IN_PROGRESS) && truthy (red s) && negb (_isTurn g mv) then
    throw (InvalidParametersError MOVE_NOT_YOUR_TURN_MESSAGE)
  else if bool_decide (status s = IN_PROGRESS) && truthy (yellow s)
          && negb (_isTurn g mv) then
    throw (InvalidParametersError MOVE_NOT_YOUR_TURN_MESSAGE)
  else
  if negb (_isTurn g mv) then
    throw (InvalidParametersError MOVE_NOT_YOUR_TURN_MESSAGE)
  else
  if negb (_checkValidBoardPosition g mv) then
    throw (InvalidParametersError BOARD_POSITION_NOT_VALID_MESSAGE)
  else skip.

Definition pieceCell (gamePiece : ConnectFourColor) : Cell :=
  if bool_decide (gamePiece = Red) then CellR else CellY.

(** The loop over [moves]; [this._board[row]] outside the six rows is
    [undefined], and indexing it is a [TypeError]. *)
Fixpoint _updateBoard (moves : list ConnectFourMove) : M unit :=
  match moves with
  | [] => skip
  | m :: rest =>
      g <- getThis ;;
      match js_get (_board g) (row m) with
      | None => throw TypeError
      | Some brow =>
          putBoard (js_set (_board g) (row m)
                      (js_set brow (col m) (pieceCell (gamePiece m)))) ;;;
          _updateBoard rest
      end
  end.

Definition _setWinnerAndGameOver (move : ConnectFourMove) : M unit :=
  s <- getState ;;
  assign (set_winner (if bool_decide (gamePiece move = Red) then red s else yellow s)) ;;;
  assign (set_status OVER).

(** Inner loop of the horizontal check, entered at column [col] with [n]
    iterations left. *)
Fixpoint horizontalCols (board : Board) (row col n counter : nat) : bool :=
  match n with
  | O => false
  | S n' =>
      let here := cellAt board (Z.of_nat row) (Z.of_nat col) in
      let counter :=
        if bool_decide (here ≠ Some CellEmpty)
           && bool_decide (here = cellAt board (Z.of_nat row) (Z.of_nat col - 1))
        then S counter else 1%nat in
      if bool_decide (counter = 4%nat) then true
      else horizontalCols board row (S col) n' counter
  end.

(** [for (row = 0; row < board.length; row++) { counter = 1;
    for (col = 1; col < board[row].length; col++) ... }] *)
Definition horizontalWin (board : Board) : bool :=
  existsb
    (λ row, horizontalCols board row 1
              (length (default [] (board !! row)) - 1) 1)
    (seq 0 (length board)).

(** Inner loop of the vertical check. *)
Fixpoint verticalRows (board : Board) (col row n counter : nat) : bool :=
  match n with
  | O => false
  | S n' =>
      let here := cellAt board (Z.of_nat row) (Z.of_nat col) in
      let counter :=
        if bool_decide (here ≠ Some CellEmpty)
           && bool_decide (here = cellAt board (Z.of_nat row - 1) (Z.of_nat col))
        then S counter else 1%nat in
      if bool_decide (counter = 4%nat) then true
      else verticalRows board col (S row) n' counter
  end.

(** [for (col = 0; col < 7; col++) { counter = 1;
    for (row = 1; row < board.length; row++) ... }] *)
Definition verticalWin (board : Board) : bool :=
  existsb (λ col, verticalRows board col 1 (length board - 1) 1) (seq 0 7).

(** Body of both diagonal loops at [(row, col)]; [drow] is [1] for the
    top-left to bottom-right check and [-1] for the other. *)
Definition diagonalAt (board : Board) (drow : Z) (row col : nat) : bool :=
  let r := Z.of_nat row in
  let c := Z.of_nat col in
  if bool_decide (cellAt board r c = Some CellEmpty) then false (* continue *)
  else
    let gamePiece := cellAt board r c in
    bool_decide (cellAt board r c = gamePiece)
    && bool_decide (cellAt board (r + drow) (c + 1) = gamePiece)
    && bool_decide (cellAt board (r + 2 * drow) (c + 2) = gamePiece)
    && bool_decide (cellAt board (r + 3 * drow) (c + 3) = gamePiece).

Definition diagonalWin (board : Board) (drow : Z) : bool :=
  existsb (λ row, existsb (λ col, diagonalAt board drow row col) (seq 0 7)) (seq 0 6).

(** The last pair of loops: some cell is not ['_'] and the log holds 42
    moves. *)
Definition tieScan (board : Board) (nmoves : nat) : bool :=
  existsb
    (λ row,
       existsb
         (λ col,
            bool_decide (cellAt board (Z.of_nat row) (Z.of_nat col) ≠ Some CellEmpty)
            && bool_decide (nmoves = 42%nat))
         (seq 0 7))
    (seq 0 6).

Definition _determineWinner (move : ConnectFourMove) (board : Board) : M unit :=
  if horizontalWin board then
    assign (set_status OVER) ;;;
    s <- getState ;;
    assign (set_winner (if bool_decide (gamePiece move = Red) then red s else yellow s))
  else if verticalWin board then
    assign (set_status OVER) ;;;
    s <- getState ;;
    assign (set_winner (if bool_decide (gamePiece move = Red) then red s else yellow s))
  else if diagonalWin board 1 then
    _setWinnerAndGameOver move
  else if diagonalWin board (-1) then
    _setWinnerAndGameOver move
  else
    s <- getState ;;
    if tieScan board (length (moves s)) then
      putState (set_winner None (set_status OVER s))
    else skip.

Definition applyMove (mv : GameMove) : M unit :=
  _checkValidMove mv ;;;
  s <- getState ;;
  putState (set_moves (moves s ++ [move mv]) s) ;;;
  s <- getState ;;
  _updateBoard (moves s) ;;;
  g <- getThis ;;
  _determineWinner (move mv) (_board g).

(** Modelled from the spec: the base class [Game] (Game.ts, not among the
    sources) is the generic lifecycle wrapper that tracks the occupants: its
    [join] runs [_join] and then records the player in [_players]. *)
Definition join (player : Player.t) : M unit :=
  _join player ;;;
  g <- getThis ;;
  putPlayers (_players g ++ [player]).

(** Modelled from the spec: the base class's [leave] (Game.ts, not among
    the sources), the other half of its occupant tracking: it runs [_leave]
    and then drops the player from [_players]. *)
Definition leave (player : Player.t) : M unit :=
  _leave player ;;;
  g <- getThis ;;
  putPlayers
    (filter (λ p, Player.id p ≠ Player.id player) (_players g)).

(** The state a call leaves behind, whether it returned or threw. *)
Definition after {A} (m : M A) (g : ConnectFourGame) : ConnectFourGame :=
  this (snd (call m g)).

Definition returns {A} (m : M A) (g : ConnectFourGame) : bool :=
  match fst (call m g) with
  | Normal _ => true
  | Throw _ => false
  end.

(** ** The vocabulary of the specification *)

(** Following the spec's words (4.4): the active color for move number [n]
    is the first-mover if [n] is even, otherwise the other color. *)
Definition opposite (c : ConnectFourColor) : ConnectFourColor :=
  match c with
  | Red => Yellow
  | Yellow => Red
  end.

Definition activeColor (first : ConnectFourColor) (n : nat) : ConnectFourColor :=
  if Nat.even n then first else opposite first.

Definition seat (c : ConnectFourColor) (s : ConnectFourGameState) : option PlayerID :=
  match c with
  | Red => red s
  | Yellow => yellow s
  end.

(** Following the spec's words (4.1 and the data model): [set] assigns a
    color to a cell, and the Board is what replaying the move log in order
    against an empty board gives. *)
Definition setCell (b : Board) (column row : Z) (color : ConnectFourColor) : Board :=
  match js_get b row with
  | Some cells => js_set b row (js_set cells column (pieceCell color))
  | None => b
  end.

Definition replayOnto (b : Board) (log : list ConnectFourMove) : Board :=
  fold_left (λ b m, setCell b (col m) (row m) (gamePiece m)) log b.

Definition replay (log : list ConnectFourMove) : Board :=
  replayOnto emptyBoard log.

(** The index types [ConnectFourColIndex] and [ConnectFourRowIndex]. *)
Definition typed (m : ConnectFourMove) : Prop :=
  (0 ≤ col m < 7)%Z ∧ (0 ≤ row m < 6)%Z.

(** The shape of the [_board] literal: six rows of seven cells. *)
Definition board_ok (b : Board) : Prop :=
  length b = 6%nat ∧ Forall (λ cells, length cells = 7%nat) b.

(** A game within its TypeScript types. *)
Definition well_typed (g : ConnectFourGame) : Prop :=
  board_ok (_board g) ∧ Forall typed (moves (state g)).

(** Following the spec's words (4.2): a run of four of one color, starting
    at [(r, c)] and advancing by [(dr, dc)]; a longer run contains one. *)
Definition line4 (b : Board) (x : Cell) (r c dr dc : Z) : Prop :=
  x ≠ CellEmpty
  ∧ ∀ k, (0 ≤ k < 4)%Z → cellAt b (r + k * dr) (c + k * dc) = Some x.

Definition horizontalRun (b : Board) (x : Cell) : Prop := ∃ r c, line4 b x r c 0 1.
Definition verticalRun (b : Board) (x : Cell) : Prop := ∃ r c, line4 b x r c 1 0.
Definition diagonalRun (b : Board) (drow : Z) (x : Cell) : Prop :=
  ∃ r c, line4 b x r c drow 1.

Definition hasRun (b : Board) (x : Cell) : Prop :=
  horizontalRun b x ∨ verticalRun b x ∨ diagonalRun b 1 x ∨ diagonalRun b (-1) x.

(** Following the spec's words (gravity invariant): no cell is empty
    directly beneath an occupied one. *)
Definition gravity (b : Board) : Prop :=
  ∀ r c x y,
    cellAt b r c = Some x → x ≠ CellEmpty →
    cellAt b (r + 1) c = Some y → y ≠ CellEmpty.

(** A call is atomic at [g] when it either returns or throws an
    [InvalidParametersError] with the whole object as it was. *)
Definition atomic {A} (m : M A) (g : ConnectFourGame) : Prop :=
  match call m g with
  | (Normal _, _) => True
  | (Throw e, w) => (∃ msg, e = InvalidParametersError msg) ∧ this w = g
  end.

(** The error a call throws, if it throws. *)
Definition thrown {A} (m : M A) (g : ConnectFourGame) : option Error :=
  match fst (call m g) with
  | Normal _ => None
  | Throw e => Some e
  end.

(** The ready flag of a seat. *)
Definition ready (c : ConnectFourColor) (s : ConnectFourGameState) : option bool :=
  match c with
  | Red => redReady s
  | Yellow => yellowReady s
  end.

(** The number of discs on the board. *)
Definition discs (b : Board) : nat :=
  length (filter (λ x, x ≠ CellEmpty) (concat b)).

(** ** Commands and reachable games *)

Inductive Command :=
  | Join (player : Player.t)
  | Leave (player : Player.t)
  | StartGame (player : Player.t)
  | ApplyMove (mv : GameMove).

Definition perform (c : Command) : M unit :=
  match c with
  | Join player => join player
  | Leave player => leave player
  | StartGame player => startGame player
  | ApplyMove mv => applyMove mv
  end.

Definition performAll (cs : list Command) (g : ConnectFourGame) : ConnectFourGame :=
  fold_left (λ g c, after (perform c) g) cs g.

(** Player ids are generated (nanoid) and are never the empty string. *)
Definition admissible (c : Command) : Prop :=
  match c with
  | Join player => Player.id player ≠ EmptyString
  | _ => True
  end.

(** The games a program can hold: constructed fresh or after a prior game,
    then driven through the public operations.  The prior game is a live
    object and may take calls of its own while its successor exists. *)
Inductive reachable : ConnectFourGame → Prop :=
  | reach_new : reachable (ConnectFourGame_new None)
  | reach_next l : reachable l → reachable (ConnectFourGame_new (Some l))
  | reach_call g c :
      reachable g → admissible c → reachable (after (perform c) g)
  | reach_prior g l c :
      reachable g → _lastGame g = Some l → admissible c →
      reachable (with_lastGame (Some (after (perform c) l)) g).

(** The status changes the class makes: none, a second player joining, a
    waiting player leaving, both players ready, and the end of the game. *)
Definition transition (s s' : GameStatus) : bool :=
  match s, s' with
  | WAITING_FOR_PLAYERS, WAITING_FOR_PLAYERS
  | WAITING_FOR_PLAYERS, WAITING_TO_START
  | WAITING_TO_START, WAITING_TO_START
  | WAITING_TO_START, WAITING_FOR_PLAYERS
  | WAITING_TO_START, IN_PROGRESS
  | IN_PROGRESS, IN_PROGRESS
  | IN_PROGRESS, OVER
  | OVER, OVER => true
  | _, _ => false
  end.

(** ** Closed forms of the calls *)

Definition seated (i : PlayerID) (s : ConnectFourGameState) : bool :=
  bool_decide (red s = Some i) || bool_decide (yellow s = Some i).

Definition clearRed (s : ConnectFourGameState) : ConnectFourGameState :=
  set_status WAITING_FOR_PLAYERS (set_redReady (Some false) (set_red None s)).

Definition clearYellow (s : ConnectFourGameState) : ConnectFourGameState :=
  set_status WAITING_FOR_PLAYERS (set_yellowReady (Some false) (set_yellow None s)).

(** The state [_leave] leaves behind when the player is seated. *)
Definition leaveState (i : PlayerID) (s : ConnectFourGameState) : ConnectFourGameState :=
  match status s with
  | IN_PROGRESS =>
      set_status OVER
        (set_winner (if bool_decide (red s = Some i) then yellow s else red s) s)
  | OVER => s
  | WAITING_TO_START =>
      if bool_decide (red s = Some i) then
        if bool_decide (yellow s = Some i) then clearYellow (clearRed s)
        else clearRed s
      else clearYellow s
  | WAITING_FOR_PLAYERS =>
      if bool_decide (red s = Some i) then clearRed s else clearYellow s
  end.

(** The seat the cascade of [_join] picks. *)
Definition joinSeat (g : ConnectFourGame) (i : PlayerID) : ConnectFourColor :=
  let s := state g in
  if bool_decide (is_Some (_lastGame g)) then
    if bool_decide (red s = None) && bool_decide (lastRed g = Some i) then Red
    else if bool_decide (yellow s = None) && bool_decide (lastYellow g = Some i) then Yellow
    else if bool_decide (red s ≠ None) && bool_decide (lastRed g = Some i) then Yellow
    else if bool_decide (yellow s ≠ None) && bool_decide (lastYellow g = Some i) then Red
    else if bool_decide (red s = None) then Red
    else Yellow
  else if bool_decide (red s = None) then Red
  else Yellow.

Definition takeSeat (c : ConnectFourColor) (i : PlayerID) (s : ConnectFourGameState) :
    ConnectFourGameState :=
  match c with
  | Red => set_red (Some i) s
  | Yellow => set_yellow (Some i) s
  end.

Definition joinState (g : ConnectFourGame) (i : PlayerID) : ConnectFourGameState :=
  let s := takeSeat (joinSeat g i) i (state g) in
  if bool_decide (red s ≠ None) && bool_decide (yellow s ≠ None)
  then set_status WAITING_TO_START s else s.

Definition full (s : ConnectFourGameState) : bool :=
  truthy (red s) && truthy (yellow s) && bool_decide (red s ≠ yellow s).

Definition startFirstPlayer (g : ConnectFourGame) : ConnectFourColor :=
  if carriedOver g then
    if bool_decide (lastFirstPlayer g = Some Red) then Yellow else Red
  else if negb (bool_decide (is_Some (_lastGame g))) then Red
  else firstPlayer (state g).

Definition startState (g : ConnectFourGame) (i : PlayerID) : ConnectFourGameState :=
  let s := set_firstPlayer (startFirstPlayer g) (state g) in
  let s := if bool_decide (red s = Some i) then set_redReady (Some true) s
           else set_yellowReady (Some true) s in
  if truthyb (yellowReady s) && truthyb (redReady s)
  then set_status IN_PROGRESS s else s.

(** What [_checkValidMove] lets through. *)
Definition accepts (g : ConnectFourGame) (mv : GameMove) : bool :=
  bool_decide (status (state g) = IN_PROGRESS)
  && _isTurn g mv && _checkValidBoardPosition g mv.

(** The four scans of [_determineWinner], in its order. *)
Definition anyWin (b : Board) : bool :=
  horizontalWin b || verticalWin b || diagonalWin b 1 || diagonalWin b (-1).

(** What [_determineWinner] makes of the state, given the board. *)
Definition outcome (m : ConnectFourMove) (b : Board) (s : ConnectFourGameState) :
    ConnectFourGameState :=
  if anyWin b then set_winner (seat (gamePiece m) s) (set_status OVER s)
  else if tieScan b (length (moves s)) then set_winner None (set_status OVER s)
  else s.

(** The game an accepted move leaves behind. *)
Definition moved (g : ConnectFourGame) (m : ConnectFourMove) : ConnectFourGame :=
  let log := moves (state g) ++ [m] in
  let b := replayOnto (_board g) log in
  mkGame (outcome m b (set_moves log (state g))) (_lastGame g) b (_players g).

Definition withPiece (mv : GameMove) (piece : ConnectFourColor) : GameMove :=
  mkGameMove (playerID mv) (gameID mv)
    (mkMove piece (col (move mv)) (row (move mv))).

(** ** Auxiliary definitions for the scans and the replay *)

(** The last piece the log writes at a cell, if it writes there at all. *)
Definition lastWrite (log : list ConnectFourMove) (r c : Z) : option Cell :=
  fold_left
    (λ acc m, if bool_decide (r = row m ∧ c = col m)
              then Some (pieceCell (gamePiece m)) else acc)
    log None.

(** Both counting loops walk a line of cells [f 0, f 1, ...]. *)
Fixpoint countScan (f : nat → option Cell) (i n counter : nat) : bool :=
  match n with
  | O => false
  | S n' =>
      let counter :=
        if bool_decide (f i ≠ Some CellEmpty) && bool_decide (f i = f (i - 1)%nat)
        then S counter else 1%nat in
      if bool_decide (counter = 4%nat) then true
      else countScan f (S i) n' counter
  end.

(** Four cells holding the same disc. *)
Definition same4 (a b c d : option Cell) : bool :=
  bool_decide (a ≠ Some CellEmpty) && bool_decide (a ≠ None)
  && bool_decide (b = a) && bool_decide (c = a) && bool_decide (d = a).

Definition window4 (f : nat → option Cell) (s : nat) : bool :=
  same4 (f s) (f (s + 1)%nat) (f (s + 2)%nat) (f (s + 3)%nat).

(** ** Invariants *)

(** Seated ids are non-empty, nobody holds both seats, and both seats are
    taken once the Round has left WAITING_FOR_PLAYERS. *)
Definition seats_ok (s : ConnectFourGameState) : Prop :=
  red s ≠ Some EmptyString
  ∧ yellow s ≠ Some EmptyString
  ∧ (red s = None ∨ red s ≠ yellow s)
  ∧ (status s ≠ WAITING_FOR_PLAYERS → red s ≠ None ∧ yellow s ≠ None).

Record Inv0 (g : ConnectFourGame) : Prop := mkInv0 {
  inv_seats : seats_ok (state g);
  inv_board : board_ok (_board g);
  inv_typed : Forall typed (moves (state g));
  inv_replay : _board g = replay (moves (state g));
  inv_norun : status (state g) ≠ OVER → anyWin (_board g) = false;
  inv_gravity : gravity (_board g);
}.

(** The invariant of a game and of the prior game it refers to. *)
Definition Inv (g : ConnectFourGame) : Prop :=
  Inv0 g ∧ ∀ l, _lastGame g = Some l → Inv0 l.

(** What reachable games keep true of the winner and of the move log. *)
Record Inv1 (g : ConnectFourGame) : Prop := mkInv1 {
  inv_winner : status (state g) ≠ OVER → winner (state g) = None;
  inv_winner_seated :
    winner (state g) = None
    ∨ winner (state g) = red (state g)
    ∨ winner (state g) = yellow (state g);
  inv_nomoves :
    status (state g) = WAITING_FOR_PLAYERS ∨ status (state g) = WAITING_TO_START →
    moves (state g) = [];
  inv_bound : (length (moves (state g)) ≤ 42)%nat;
  inv_full : length (moves (state g)) = 42%nat → status (state g) = OVER;
}.

(** ** Concrete games *)

Definition alice := Player.mk "alice".
Definition bob := Player.mk "bob".
Definition carol := Player.mk "carol".
Definition dave := Player.mk "dave".

(** Two players seated and started, no prior game. *)
Definition started : ConnectFourGame :=
  performAll [Join alice; Join bob; StartGame alice; StartGame bob]
    (ConnectFourGame_new None).

(** A game in which alice sits on Red and bob on Yellow. *)
Definition priorGame : ConnectFourGame :=
  performAll [Join alice; Join bob] (ConnectFourGame_new None).

(** The successor of [priorGame]: alice and carol sit, carol reports ready
    (the first mover flips to Yellow), alice leaves, dave takes her seat. *)
Definition rejoined : ConnectFourGame :=
  performAll [Join alice; Join carol; StartGame carol; Leave alice; Join dave]
    (ConnectFourGame_new (Some priorGame)).

(** Six moves: Red on columns 0..2 of the bottom row, Yellow on top of
    each.  After them Red's next disc on column 3 completes a row of four. *)
Definition sixLog : list GameMove :=
  [mkGameMove "alice" "game" (mkMove Red 0 5);
   mkGameMove "bob" "game" (mkMove Yellow 0 4);
   mkGameMove "alice" "game" (mkMove Red 1 5);
   mkGameMove "bob" "game" (mkMove Yellow 1 4);
   mkGameMove "alice" "game" (mkMove Red 2 5);
   mkGameMove "bob" "game" (mkMove Yellow 2 4)].

Definition sixMoves : ConnectFourGame :=
  performAll (ApplyMove <$> sixLog) started.

Definition winningMove : GameMove :=
  mkGameMove "alice" "game" (mkMove Red 3 5).

(** The successor of [priorGame] with carol, a new player, on Red. *)
Definition carolSeated : ConnectFourGame :=
  performAll [Join carol] (ConnectFourGame_new (Some priorGame)).

(** Six moves into [started] in which alice, on Red, submits Yellow
    pieces: Yellow discs on columns 0..2 of the bottom row. *)
Definition yellowRow : ConnectFourGame :=
  performAll
    [ApplyMove (mkGameMove "alice" "game" (mkMove Yellow 0 5));
     ApplyMove (mkGameMove "bob" "game" (mkMove Yellow 0 4));
     ApplyMove (mkGameMove "alice" "game" (mkMove Yellow 1 5));
     ApplyMove (mkGameMove "bob" "game" (mkMove Yellow 1 4));
     ApplyMove (mkGameMove "alice" "game" (mkMove Yellow 2 5));
     ApplyMove (mkGameMove "bob" "game" (mkMove Red 2 4))]
    started.

(** Forty-one moves into [started] with no four in a row anywhere, and the
    move that fills the board, still with none. *)
Definition fortyOne : ConnectFourGame :=
  performAll
    [ApplyMove (mkGameMove "alice" "game" (mkMove Red 0 5));
     ApplyMove (mkGameMove "bob" "game" (mkMove Yellow 1 5));
     ApplyMove (mkGameMove "alice" "game" (mkMove Red 2 5));
     ApplyMove (mkGameMove "bob" "game" (mkMove Yellow 3 5));
     ApplyMove (mkGameMove "alice" "game" (mkMove Red 4 5));
     ApplyMove (mkGameMove "bob" "game" (mkMove Yellow 5 5));
     ApplyMove (mkGameMove "alice" "game" (mkMove Red 6 5));
     ApplyMove (mkGameMove "bob" "game" (mkMove Yellow 0 4));
     ApplyMove (mkGameMove "alice" "game" (mkMove Red 1 4));
     ApplyMove (mkGameMove "bob" "game" (mkMove Yellow 2 4));
     ApplyMove (mkGameMove "alice" "game" (mkMove Red 3 4));
     ApplyMove (mkGameMove "bob" "game" (mkMove Yellow 4 4));
     ApplyMove (mkGameMove "alice" "game" (mkMove Red 5 4));
     ApplyMove (mkGameMove "bob" "game" (mkMove Yellow 0 3));
     ApplyMove (mkGameMove "alice" "game" (mkMove Red 1 3));
     ApplyMove (mkGameMove "bob" "game" (mkMove Yellow 6 4));
     ApplyMove (mkGameMove "alice" "game" (mkMove Red 3 3));
     ApplyMove (mkGameMove "bob" "game" (mkMove Yellow 2 3));
     ApplyMove (mkGameMove "alice" "game" (mkMove Red 5 3));
     ApplyMove (mkGameMove "bob" "game" (mkMove Yellow 4 3));
     ApplyMove (mkGameMove "alice" "game" (mkMove Red 0 2));
     ApplyMove (mkGameMove "bob" "game" (mkMove Yellow 6 3));
     ApplyMove (mkGameMove "alice" "game" (mkMove Red 2 2));
     ApplyMove (mkGameMove "bob" "game" (mkMove Yellow 1 2));
     ApplyMove (mkGameMove "alice" "game" (mkMove Red 4 2));
     ApplyMove (mkGameMove "bob" "game" (mkMove Yellow 3 2));
     ApplyMove (mkGameMove "alice" "game" (mkMove Red 0 1));
     ApplyMove (mkGameMove "bob" "game" (mkMove Yellow 5 2));
     ApplyMove (mkGameMove "alice" "game" (mkMove Red 6 2));
     ApplyMove (mkGameMove "bob" "game" (mkMove Yellow 1 1));
     ApplyMove (mkGameMove "alice" "game" (mkMove Red 2 1));
     ApplyMove (mkGameMove "bob" "game" (mkMove Yellow 3 1));
     ApplyMove (mkGameMove "alice" "game" (mkMove Red 4 1));
     ApplyMove (mkGameMove "bob" "game" (mkMove Yellow 5 1));
     ApplyMove (mkGameMove "alice" "game" (mkMove Red 6 1));
     ApplyMove (mkGameMove "bob" "game" (mkMove Yellow 0 0));
     ApplyMove (mkGameMove "alice" "game" (mkMove Red 1 0));
     ApplyMove (mkGameMove "bob" "game" (mkMove Yellow 2 0));
     ApplyMove (mkGameMove "alice" "game" (mkMove Red 3 0));
     ApplyMove (mkGameMove "bob" "game" (mkMove Yellow 4 0));
     ApplyMove (mkGameMove "alice" "game" (mkMove Red 5 0))]
    started.

Definition lastMove : GameMove :=
  mkGameMove "bob" "game" (mkMove Yellow 6 0).

(** [sixMoves] after Red's winning move. *)
Definition wonGame : ConnectFourGame :=
  performAll [ApplyMove winningMove] sixMoves.

(** Red's first move of [sixLog]. *)
Definition openingMove : GameMove :=
  mkGameMove "alice" "game" (mkMove Red 0 5).

(** ** Tactics *)

Ltac js_unfold :=
  unfold after, returns, call, join, leave, startGame, _join, _leave,
    _createNewGame, _checkValidMove, _setWinnerAndGameOver, skip in *;
  unfold bind, ret, throw, getThis, getState, putState, assign, putBoard,
    putPlayers, construct in *;
  cbn [this constructed state _lastGame _board _players with_state with_board
       with_players fst snd
       moves status firstPlayer red yellow redReady yellowReady winner
       set_moves set_status set_firstPlayer set_red set_yellow set_redReady
       set_yellowReady set_winner] in *.

Ltac js_destruct g :=
  destruct g as [[?ms ?st ?fp ?r ?y ?rr ?yr ?w] ?l ?b ?ps].

Ltac js_goal :=
  cbn [this constructed state _lastGame _board _players with_state
       with_board with_players fst snd andb orb negb
       moves status firstPlayer red yellow redReady yellowReady winner
       set_moves set_status set_firstPlayer set_red set_yellow set_redReady
       set_yellowReady set_winner].

Ltac js_if :=
  match goal with
  | |- context [if ?c then _ else _] =>
      lazymatch c with
      | bool_decide _ => fail
      | _ => destruct c
      end
  end.

Ltac js_run :=
  repeat (first [ progress js_goal | progress cbn [truthyb]
                | case_bool_decide; try congruence
                | js_if ]).

(** ** Turn arbiter *)

Lemma mod2_even (n : nat) : bool_decide ((n mod 2)%nat = 0%nat) = Nat.even n.
Proof.
  destruct (Nat.even n) eqn:E.
  - apply bool_decide_eq_true. apply Nat.even_spec in E. destruct E as [k ->].
    rewrite Nat.mul_comm. apply Nat.Div0.mod_mul.
  - apply bool_decide_eq_false. intros H.
    apply Nat.Div0.mod_divides in H. destruct H as [k ->].
    rewrite Nat.even_mul in E. discriminate.
Qed.

Lemma isTurn_eq (g : ConnectFourGame) (mv : GameMove) :
  _isTurn g mv =
  bool_decide
    (seat (activeColor (firstPlayer (state g)) (length (moves (state g)))) (state g)
     = Some (playerID mv)).
Proof.
  unfold _isTurn, activeColor, _getOtherPlayerColor.
  rewrite mod2_even.
  destruct (Nat.even _), (firstPlayer (state g)); cbn;
    repeat case_bool_decide; cbn; congruence.
Qed.

Lemma isTurn_seated (g : ConnectFourGame) (mv : GameMove) :
  _isTurn g mv = true → seated (playerID mv) (state g) = true.
Proof.
  unfold _isTurn, seated.
  destruct (bool_decide (_ = 0%nat)), (firstPlayer (state g)); cbn;
    repeat case_bool_decide; cbn; congruence.
Qed.

(** ** JS arrays and the board *)

Lemma js_get_Some {A} (a : list A) (i : Z) :
  (0 ≤ i < Z.of_nat (length a))%Z → ∃ x, js_get a i = Some x.
Proof.
  intros Hi. unfold js_get. rewrite bool_decide_eq_true_2 by lia.
  apply lookup_lt_is_Some_2. lia.
Qed.

Lemma js_get_range {A} (a : list A) (i : Z) (x : A) :
  js_get a i = Some x → (0 ≤ i < Z.of_nat (length a))%Z.
Proof.
  unfold js_get. case_bool_decide; [|done].
  intros Hlt%lookup_lt_Some. lia.
Qed.

Lemma js_get_set {A} (a : list A) (i j : Z) (v : A) :
  (0 ≤ i < Z.of_nat (length a))%Z →
  js_get (js_set a i v) j = if bool_decide (i = j) then Some v else js_get a j.
Proof.
  intros Hi. unfold js_get, js_set.
  rewrite (bool_decide_eq_true_2 (0 ≤ i)%Z) by lia.
  destruct (decide (i = j)) as [<-|Hij].
  - rewrite !bool_decide_eq_true_2 by (done || lia).
    apply list_lookup_insert_eq. lia.
  - rewrite (bool_decide_eq_false_2 (i = j)) by done.
    case_bool_decide; [|done].
    apply list_lookup_insert_ne. lia.
Qed.

Lemma js_set_length {A} (a : list A) (i : Z) (v : A) :
  length (js_set a i v) = length a.
Proof. unfold js_set. case_bool_decide; [apply length_insert|done]. Qed.

Lemma js_get_nat {A} (a : list A) (i : nat) : js_get a (Z.of_nat i) = a !! i.
Proof.
  unfold js_get. rewrite bool_decide_eq_true_2 by lia. by rewrite Nat2Z.id.
Qed.

Lemma board_ok_row (b : Board) (r : Z) (cells : list Cell) :
  board_ok b → js_get b r = Some cells → length cells = 7%nat.
Proof.
  intros [_ Hrows] Hget. unfold js_get in Hget. case_bool_decide; [|done].
  rewrite Forall_lookup in Hrows. eauto.
Qed.

Lemma board_ok_emptyBoard : board_ok emptyBoard.
Proof. split; [done|]. repeat constructor. Qed.

Lemma setCell_ok (b : Board) (column row : Z) (color : ConnectFourColor) :
  board_ok b → board_ok (setCell b column row color).
Proof.
  intros Hb. unfold setCell. destruct (js_get b row) as [cells|] eqn:Hrow; [|done].
  destruct Hb as [Hlen Hrows]. split.
  - by rewrite js_set_length.
  - unfold js_set at 1. case_bool_decide; [|done].
    apply Forall_insert; [done|]. rewrite js_set_length.
    eapply board_ok_row; [by split|done].
Qed.

Lemma cellAt_setCell (b : Board) (column row : Z) (color : ConnectFourColor) (r c : Z) :
  board_ok b → (0 ≤ column < 7)%Z → (0 ≤ row < 6)%Z →
  cellAt (setCell b column row color) r c =
  if bool_decide (r = row ∧ c = column) then Some (pieceCell color) else cellAt b r c.
Proof.
  intros Hb Hc Hr. unfold setCell.
  destruct (js_get_Some b row) as [cells Hcells]; [destruct Hb; lia|].
  rewrite Hcells. unfold cellAt.
  rewrite js_get_set by (destruct Hb; lia).
  assert (length cells = 7%nat) by eauto using board_ok_row.
  destruct (decide (row = r)) as [<-|Hrr].
  - rewrite (bool_decide_eq_true_2 (row = row)) by done. cbn.
    rewrite js_get_set by lia. rewrite Hcells. cbn.
    destruct (decide (column = c)) as [<-|Hcc].
    + by rewrite !bool_decide_eq_true_2.
    + rewrite !bool_decide_eq_false_2; [done|intros [_ ?]; congruence|done].
  - rewrite !bool_decide_eq_false_2; [done|intros [? _]; congruence|done].
Qed.

Lemma cellAt_range (b : Board) (r c : Z) (x : Cell) :
  board_ok b → cellAt b r c = Some x → (0 ≤ r < 6)%Z ∧ (0 ≤ c < 7)%Z.
Proof.
  intros Hb H. unfold cellAt in H.
  destruct (js_get b r) as [cells|] eqn:Hrow; [|done]. cbn in H.
  apply js_get_range in H. apply js_get_range in Hrow as Hr.
  erewrite board_ok_row in H by eauto. destruct Hb. lia.
Qed.

Lemma cellAt_in_range (b : Board) (r c : Z) :
  board_ok b → (0 ≤ r < 6)%Z → (0 ≤ c < 7)%Z → ∃ x, cellAt b r c = Some x.
Proof.
  intros Hb Hr Hc. unfold cellAt.
  destruct (js_get_Some b r) as [cells Hcells]; [destruct Hb; lia|].
  rewrite Hcells. cbn. apply js_get_Some.
  erewrite board_ok_row by eauto. lia.
Qed.

Lemma cellAt_nat (b : Board) (i j : nat) :
  cellAt b (Z.of_nat i) (Z.of_nat j) = b !! i ≫= (.!! j).
Proof.
  unfold cellAt. rewrite js_get_nat.
  destruct (b !! i); cbn; [|reflexivity]. apply js_get_nat.
Qed.

(** Two boards of the right shape with the same cells are the same. *)
Lemma board_ext (b1 b2 : Board) :
  board_ok b1 → board_ok b2 →
  (∀ r c, cellAt b1 r c = cellAt b2 r c) → b1 = b2.
Proof.
  intros H1 H2 Hcells. apply list_eq. intros i.
  destruct (decide (i < 6)%nat) as [Hi|Hi].
  - destruct (js_get_Some b1 (Z.of_nat i)) as [c1 Hc1]; [destruct H1; lia|].
    destruct (js_get_Some b2 (Z.of_nat i)) as [c2 Hc2]; [destruct H2; lia|].
    assert (c1 = c2) as ->.
    { apply list_eq. intros j. specialize (Hcells (Z.of_nat i) (Z.of_nat j)).
      unfold cellAt in Hcells. rewrite Hc1, Hc2 in Hcells. cbn in Hcells.
      unfold js_get in Hcells. rewrite bool_decide_eq_true_2 in Hcells by lia.
      by rewrite Nat2Z.id in Hcells. }
    unfold js_get in Hc1, Hc2. rewrite bool_decide_eq_true_2 in Hc1, Hc2 by lia.
    rewrite Nat2Z.id in Hc1, Hc2. congruence.
  - destruct H1, H2. rewrite !lookup_ge_None_2 by lia. done.
Qed.

Lemma replayOnto_ok (log : list ConnectFourMove) (b : Board) :
  board_ok b → board_ok (replayOnto b log).
Proof.
  revert b. induction log as [|m log IH]; intros b Hb; [done|].
  cbn. apply IH. by apply setCell_ok.
Qed.

Lemma replayOnto_app (log1 log2 : list ConnectFourMove) (b : Board) :
  replayOnto b (log1 ++ log2) = replayOnto (replayOnto b log1) log2.
Proof. apply fold_left_app. Qed.

Lemma replay_snoc (log : list ConnectFourMove) (m : ConnectFourMove) :
  replay (log ++ [m]) = setCell (replay log) (col m) (row m) (gamePiece m).
Proof. unfold replay. by rewrite replayOnto_app. Qed.

Lemma cellAt_replayOnto (log : list ConnectFourMove) (b : Board) (r c : Z) :
  board_ok b → Forall typed log →
  cellAt (replayOnto b log) r c =
  match lastWrite log r c with
  | Some x => Some x
  | None => cellAt b r c
  end.
Proof.
  intros Hb Hlog. revert b Hb Hlog.
  induction log as [|m log IH] using rev_ind; intros b Hb Hlog; [done|].
  apply Forall_app in Hlog as [Hlog [Hc Hr]%Forall_singleton].
  rewrite replayOnto_app. unfold lastWrite. rewrite fold_left_app. cbn.
  rewrite cellAt_setCell by (try done; by apply replayOnto_ok).
  case_bool_decide; [done|]. by apply IH.
Qed.

(** Replaying a log onto a board it has already been replayed onto changes
    nothing: [_updateBoard] re-applies the whole log at every move. *)
Lemma replayOnto_idem (log : list ConnectFourMove) (b : Board) :
  board_ok b → Forall typed log →
  replayOnto (replayOnto b log) log = replayOnto b log.
Proof.
  intros Hb Hlog. apply board_ext; try by repeat apply replayOnto_ok.
  intros r c. rewrite !cellAt_replayOnto by (try done; by apply replayOnto_ok).
  by destruct (lastWrite log r c).
Qed.

(** [_updateBoard] is the replay onto the current board, and does not throw
    while the rows of the log are rows of the board. *)
Lemma updateBoard_run (log : list ConnectFourMove) (w : World) :
  board_ok (_board (this w)) → Forall typed log →
  _updateBoard log w =
  (Normal tt, mkWorld (with_board (replayOnto (_board (this w)) log) (this w)) (constructed w)).
Proof.
  intros Hb Hlog. revert w Hb.
  induction Hlog as [|m log [Hc Hr] _ IH]; intros [g cs] Hb.
  - cbn. by destruct g.
  - cbn [_updateBoard]. unfold bind at 1, getThis. cbn in *.
    destruct (js_get_Some (_board g) (row m)) as [cells Hcells]; [destruct Hb; lia|].
    rewrite Hcells. unfold bind, putBoard. cbn.
    rewrite IH.
    + cbn. unfold setCell. rewrite Hcells. by destruct g.
    + cbn. pose proof (setCell_ok (_board g) (col m) (row m) (gamePiece m) Hb) as H.
      unfold setCell in H. by rewrite Hcells in H.
Qed.

(** Dropping a disc on a placeable cell keeps the gravity invariant. *)
Lemma gravity_setCell (b : Board) (column row : Z) (color : ConnectFourColor) :
  board_ok b → (0 ≤ column < 7)%Z → (0 ≤ row < 6)%Z →
  (row = 5%Z ∨ cellAt b (row + 1) column ≠ Some CellEmpty) →
  gravity b → gravity (setCell b column row color).
Proof.
  intros Hb Hc Hr Hbelow Hgrav r c x y.
  rewrite !cellAt_setCell by done.
  destruct (decide (r + 1 = row ∧ c = column)%Z) as [Hup|Hup].
  - rewrite (bool_decide_eq_true_2 _ Hup).
    intros _ _ [= <-]. by destruct color.
  - rewrite (bool_decide_eq_false_2 _ Hup).
    case_bool_decide as Hat.
    + destruct Hat as [-> ->]. intros _ _ Hy.
      destruct Hbelow as [->|Hbelow]; [|congruence].
      apply cellAt_range in Hy; [lia|done].
    + apply Hgrav.
Qed.

Lemma gravity_emptyBoard : gravity emptyBoard.
Proof.
  intros r c x y Hx Hne. apply cellAt_range in Hx as Hrange; [|apply board_ok_emptyBoard].
  assert (x = CellEmpty); [|done].
  assert (∃ i j, r = Z.of_nat i ∧ c = Z.of_nat j ∧ (i < 6)%nat ∧ (j < 7)%nat)
    as (i & j & -> & -> & Hi & Hj).
  { exists (Z.to_nat r), (Z.to_nat c). lia. }
  rewrite cellAt_nat in Hx.
  do 6 (destruct i as [|i]; [do 7 (destruct j as [|j]; [cbn in Hx; congruence|]); lia|]).
  lia.
Qed.

(** ** Win detection *)

Lemma horizontalCols_countScan (b : Board) (row col n counter : nat) :
  (1 ≤ col)%nat →
  horizontalCols b row col n counter =
  countScan (λ j, cellAt b (Z.of_nat row) (Z.of_nat j)) col n counter.
Proof.
  revert col counter. induction n as [|n IH]; intros col counter Hcol; [done|].
  cbn. replace (Z.of_nat col - 1)%Z with (Z.of_nat (col - 1)) by lia.
  rewrite IH by lia. done.
Qed.

Lemma verticalRows_countScan (b : Board) (col row n counter : nat) :
  (1 ≤ row)%nat →
  verticalRows b col row n counter =
  countScan (λ i, cellAt b (Z.of_nat i) (Z.of_nat col)) row n counter.
Proof.
  revert row counter. induction n as [|n IH]; intros row counter Hrow; [done|].
  cbn. replace (Z.of_nat row - 1)%Z with (Z.of_nat (row - 1)) by lia.
  rewrite IH by lia. done.
Qed.

Lemma countScan_ext (f g : nat → option Cell) (i n counter : nat) :
  (1 ≤ i)%nat → (∀ j, (j < i + n)%nat → f j = g j) →
  countScan f i n counter = countScan g i n counter.
Proof.
  revert i counter. induction n as [|n IH]; intros i counter Hi Hfg; [done|].
  cbn. rewrite !(Hfg i), !(Hfg (i - 1)%nat) by lia.
  rewrite IH; [done|lia|]. intros j Hj. apply Hfg. lia.
Qed.

(** On a line of seven cells the counting loop finds exactly the windows
    of four; likewise on six.  Checked on every line. *)
Lemma countScan_seven (a0 a1 a2 a3 a4 a5 a6 : Cell) :
  countScan (λ j, [a0; a1; a2; a3; a4; a5; a6] !! j) 1 6 1 =
  existsb (window4 (λ j, [a0; a1; a2; a3; a4; a5; a6] !! j)) (seq 0 4).
Proof.
  destruct a0, a1, a2, a3, a4, a5, a6; vm_compute; reflexivity.
Qed.

Lemma countScan_six (a0 a1 a2 a3 a4 a5 : Cell) :
  countScan (λ j, [a0; a1; a2; a3; a4; a5] !! j) 1 5 1 =
  existsb (window4 (λ j, [a0; a1; a2; a3; a4; a5] !! j)) (seq 0 3).
Proof.
  destruct a0, a1, a2, a3, a4, a5; vm_compute; reflexivity.
Qed.

Lemma same4_spec (a b c d : option Cell) :
  same4 a b c d = true ↔
  ∃ x, x ≠ CellEmpty ∧ a = Some x ∧ b = Some x ∧ c = Some x ∧ d = Some x.
Proof.
  unfold same4. rewrite !andb_true_iff, !bool_decide_eq_true. split.
  - intros ((((Ha & Hn) & ->) & ->) & ->). destruct a as [x|]; [|done].
    exists x. repeat split; congruence.
  - intros (x & Hx & -> & -> & -> & ->). repeat split; congruence.
Qed.

Lemma line4_iff (b : Board) (x : Cell) (r c dr dc : Z) :
  line4 b x r c dr dc ↔
  x ≠ CellEmpty
  ∧ cellAt b r c = Some x
  ∧ cellAt b (r + dr) (c + dc) = Some x
  ∧ cellAt b (r + 2 * dr) (c + 2 * dc) = Some x
  ∧ cellAt b (r + 3 * dr) (c + 3 * dc) = Some x.
Proof.
  unfold line4. split.
  - intros [Hx H]. split; [done|].
    pose proof (H 0%Z) as H0. pose proof (H 1%Z) as H1.
    pose proof (H 2%Z) as H2. pose proof (H 3%Z) as H3.
    rewrite !Z.mul_0_l, !Z.add_0_r in H0. rewrite !Z.mul_1_l in H1.
    repeat split; auto with lia.
  - intros (Hx & H0 & H1 & H2 & H3). split; [done|]. intros k Hk.
    assert (k = 0 ∨ k = 1 ∨ k = 2 ∨ k = 3)%Z as [-> | [-> | [-> | ->]]] by lia;
      rewrite ?Z.mul_0_l, ?Z.add_0_r, ?Z.mul_1_l; done.
Qed.

Lemma countScan_line7 (f : nat → option Cell) (cells : list Cell) :
  length cells = 7%nat → (∀ j, f j = cells !! j) →
  countScan f 1 6 1 = existsb (window4 f) (seq 0 4).
Proof.
  intros Hlen Hf.
  do 8 (destruct cells as [|? cells]; try discriminate Hlen).
  rewrite (countScan_ext f (λ j, [c; c0; c1; c2; c3; c4; c5] !! j)) by (done || lia).
  rewrite countScan_seven. cbn [existsb seq]. unfold window4. by rewrite !Hf.
Qed.

Lemma countScan_line6 (f : nat → option Cell) (cells : list Cell) :
  length cells = 6%nat → (∀ j, f j = cells !! j) →
  countScan f 1 5 1 = existsb (window4 f) (seq 0 3).
Proof.
  intros Hlen Hf.
  do 7 (destruct cells as [|? cells]; try discriminate Hlen).
  rewrite (countScan_ext f (λ j, [c; c0; c1; c2; c3; c4] !! j)) by (done || lia).
  rewrite countScan_six. cbn [existsb seq]. unfold window4. by rewrite !Hf.
Qed.

Lemma board_row_line (b : Board) (i : nat) :
  board_ok b → (i < 6)%nat →
  ∃ cells, b !! i = Some cells ∧ length cells = 7%nat
           ∧ ∀ j, cellAt b (Z.of_nat i) (Z.of_nat j) = cells !! j.
Proof.
  intros [Hlen Hrows] Hi.
  destruct (lookup_lt_is_Some_2 b i) as [cells Hcells]; [lia|].
  exists cells. split; [done|]. split.
  - rewrite Forall_lookup in Hrows. eauto.
  - intros j. rewrite cellAt_nat, Hcells. done.
Qed.

Lemma board_col_line (b : Board) (j : nat) :
  board_ok b → (j < 7)%nat →
  ∃ cells, length cells = 6%nat
           ∧ ∀ i, cellAt b (Z.of_nat i) (Z.of_nat j) = cells !! i.
Proof.
  intros [Hlen Hrows] Hj.
  exists ((λ cells, default CellEmpty (cells !! j)) <$> b). split.
  - by rewrite length_fmap.
  - intros i. rewrite cellAt_nat, list_lookup_fmap.
    destruct (b !! i) as [cells|] eqn:Hcells; [|done]. cbn.
    rewrite Forall_lookup in Hrows. apply Hrows in Hcells.
    destruct (lookup_lt_is_Some_2 cells j) as [x Hx]; [lia|]. by rewrite Hx.
Qed.

Lemma existsb_seq (f : nat → bool) (n : nat) :
  existsb f (seq 0 n) = true ↔ ∃ i, (i < n)%nat ∧ f i = true.
Proof.
  rewrite existsb_exists. split; intros (i & Hi & Hf); exists i.
  - apply in_seq in Hi. split; [lia|done].
  - split; [apply in_seq; lia|done].
Qed.

(** The horizontal scan finds a run exactly when a row holds one. *)
Lemma horizontalWin_iff (b : Board) :
  board_ok b → horizontalWin b = true ↔ ∃ x, horizontalRun b x.
Proof.
  intros Hb. unfold horizontalWin, horizontalRun.
  replace (length b) with 6%nat by (by destruct Hb).
  rewrite existsb_seq. split.
  - intros (i & Hi & Hscan).
    destruct (board_row_line b i Hb Hi) as (cells & Hcells & Hlen & Hline).
    replace (length (default [] (b !! i)) - 1)%nat with 6%nat in Hscan
      by (rewrite Hcells; cbn; lia).
    rewrite horizontalCols_countScan in Hscan by lia.
    rewrite (countScan_line7 _ cells) in Hscan by done.
    apply existsb_seq in Hscan as (s & Hs & Hwin).
    apply same4_spec in Hwin as (x & Hx & H0 & H1 & H2 & H3).
    exists x, (Z.of_nat i), (Z.of_nat s). apply line4_iff.
    rewrite !Z.mul_0_r, !Z.add_0_r, !Z.mul_1_r.
    replace (Z.of_nat s + 1)%Z with (Z.of_nat (s + 1)) by lia.
    replace (Z.of_nat s + 2)%Z with (Z.of_nat (s + 2)) by lia.
    replace (Z.of_nat s + 3)%Z with (Z.of_nat (s + 3)) by lia.
    done.
  - intros (x & r & c & Hline). apply line4_iff in Hline as (Hx & H0 & H1 & H2 & H3).
    rewrite !Z.mul_0_r, !Z.add_0_r, ?Z.mul_1_r in *.
    apply cellAt_range in H0 as Hr0; [|done]. apply cellAt_range in H3 as Hr3; [|done].
    exists (Z.to_nat r). split; [lia|].
    destruct (board_row_line b (Z.to_nat r) Hb) as (cells & Hcells & Hlen & Hcl); [lia|].
    replace (length (default [] (b !! Z.to_nat r)) - 1)%nat with 6%nat
      by (rewrite Hcells; cbn; lia).
    rewrite horizontalCols_countScan by lia.
    rewrite (countScan_line7 _ cells) by done.
    apply existsb_seq. exists (Z.to_nat c). split; [lia|].
    apply same4_spec. exists x. split; [done|].
    replace (Z.of_nat (Z.to_nat c + 1)) with (c + 1)%Z by lia.
    replace (Z.of_nat (Z.to_nat c + 2)) with (c + 2)%Z by lia.
    replace (Z.of_nat (Z.to_nat c + 3)) with (c + 3)%Z by lia.
    rewrite !Z2Nat.id by lia. done.
Qed.

(** The vertical scan finds a run exactly when a column holds one. *)
Lemma verticalWin_iff (b : Board) :
  board_ok b → verticalWin b = true ↔ ∃ x, verticalRun b x.
Proof.
  intros Hb. unfold verticalWin, verticalRun.
  replace (length b) with 6%nat by (by destruct Hb).
  rewrite existsb_seq. split.
  - intros (j & Hj & Hscan).
    destruct (board_col_line b j Hb Hj) as (cells & Hlen & Hline).
    rewrite verticalRows_countScan in Hscan by lia.
    rewrite (countScan_line6 _ cells) in Hscan by done.
    apply existsb_seq in Hscan as (s & Hs & Hwin).
    apply same4_spec in Hwin as (x & Hx & H0 & H1 & H2 & H3).
    exists x, (Z.of_nat s), (Z.of_nat j). apply line4_iff.
    rewrite !Z.mul_0_r, !Z.add_0_r, !Z.mul_1_r.
    replace (Z.of_nat s + 1)%Z with (Z.of_nat (s + 1)) by lia.
    replace (Z.of_nat s + 2)%Z with (Z.of_nat (s + 2)) by lia.
    replace (Z.of_nat s + 3)%Z with (Z.of_nat (s + 3)) by lia.
    done.
  - intros (x & r & c & Hline). apply line4_iff in Hline as (Hx & H0 & H1 & H2 & H3).
    rewrite !Z.mul_0_r, !Z.add_0_r, ?Z.mul_1_r in *.
    apply cellAt_range in H0 as Hr0; [|done]. apply cellAt_range in H3 as Hr3; [|done].
    exists (Z.to_nat c). split; [lia|].
    destruct (board_col_line b (Z.to_nat c) Hb) as (cells & Hlen & Hcl); [lia|].
    rewrite verticalRows_countScan by lia.
    rewrite (countScan_line6 _ cells) by done.
    apply existsb_seq. exists (Z.to_nat r). split; [lia|].
    apply same4_spec. exists x. split; [done|].
    replace (Z.of_nat (Z.to_nat r + 1)) with (r + 1)%Z by lia.
    replace (Z.of_nat (Z.to_nat r + 2)) with (r + 2)%Z by lia.
    replace (Z.of_nat (Z.to_nat r + 3)) with (r + 3)%Z by lia.
    rewrite !Z2Nat.id by lia. done.
Qed.

(** Each diagonal scan finds a run exactly when the board holds one in its
    direction. *)
Lemma diagonalWin_iff (b : Board) (drow : Z) :
  board_ok b → diagonalWin b drow = true ↔ ∃ x, diagonalRun b drow x.
Proof.
  intros Hb. unfold diagonalWin, diagonalRun. rewrite existsb_seq. split.
  - intros (i & Hi & Hrow). apply existsb_seq in Hrow as (j & Hj & Hat).
    unfold diagonalAt in Hat.
    destruct (cellAt_in_range b (Z.of_nat i) (Z.of_nat j) Hb) as [x Hx]; [lia..|].
    rewrite Hx in Hat. case_bool_decide as Hne; [done|].
    rewrite !andb_true_iff, !bool_decide_eq_true in Hat.
    destruct Hat as (((_ & H1) & H2) & H3).
    exists x, (Z.of_nat i), (Z.of_nat j). apply line4_iff.
    rewrite !Z.mul_1_r. repeat split; try done. congruence.
  - intros (x & r & c & Hline). apply line4_iff in Hline as (Hx & H0 & H1 & H2 & H3).
    rewrite !Z.mul_1_r in *.
    apply cellAt_range in H0 as Hr0; [|done].
    exists (Z.to_nat r). split; [lia|].
    apply existsb_seq. exists (Z.to_nat c). split; [lia|].
    unfold diagonalAt. rewrite !Z2Nat.id by lia. rewrite H0, H1, H2, H3.
    rewrite bool_decide_eq_false_2 by congruence.
    by rewrite !bool_decide_eq_true_2.
Qed.

Lemma anyWin_iff (b : Board) :
  board_ok b → anyWin b = true ↔ ∃ x, hasRun b x.
Proof.
  intros Hb. unfold anyWin, hasRun. rewrite !orb_true_iff.
  rewrite horizontalWin_iff, verticalWin_iff, !diagonalWin_iff by done.
  split.
  - intros [[[[x H]|[x H]]|[x H]]|[x H]]; exists x; tauto.
  - intros (x & [H|[H|[H|H]]]); eauto 6.
Qed.

(** A line of four on the board after a disc is set either was there
    before or is of the disc's color. *)
Lemma line4_setCell (b : Board) (column row : Z) (color : ConnectFourColor)
    (x : Cell) (r c dr dc : Z) :
  board_ok b → (0 ≤ column < 7)%Z → (0 ≤ row < 6)%Z →
  line4 (setCell b column row color) x r c dr dc →
  line4 b x r c dr dc ∨ x = pieceCell color.
Proof.
  intros Hb Hc Hr [Hx Hline].
  destruct (decide (x = pieceCell color)) as [|Hne]; [by right|left].
  split; [done|]. intros k Hk. specialize (Hline k Hk).
  rewrite cellAt_setCell in Hline by done.
  case_bool_decide; [congruence|done].
Qed.

Lemma hasRun_setCell (b : Board) (column row : Z) (color : ConnectFourColor) (x : Cell) :
  board_ok b → (0 ≤ column < 7)%Z → (0 ≤ row < 6)%Z →
  hasRun (setCell b column row color) x → hasRun b x ∨ x = pieceCell color.
Proof.
  intros Hb Hc Hr.
  unfold hasRun, horizontalRun, verticalRun, diagonalRun.
  intros [(r & c & H)|[(r & c & H)|[(r & c & H)|(r & c & H)]]];
    apply line4_setCell in H as [H|H]; try done; eauto 10.
Qed.

Lemma tieScan_true (b : Board) (n : nat) (r c : Z) (x : Cell) :
  board_ok b → cellAt b r c = Some x → x ≠ CellEmpty → n = 42%nat →
  tieScan b n = true.
Proof.
  intros Hb Hcell Hx ->. apply cellAt_range in Hcell as Hrange; [|done].
  unfold tieScan. apply existsb_seq. exists (Z.to_nat r). split; [lia|].
  apply existsb_seq. exists (Z.to_nat c). split; [lia|].
  rewrite !Z2Nat.id by lia. rewrite Hcell.
  rewrite !bool_decide_eq_true_2; [done|done|congruence].
Qed.

Lemma tieScan_false (b : Board) (n : nat) : n ≠ 42%nat → tieScan b n = false.
Proof.
  intros Hn. apply not_true_is_false. unfold tieScan.
  intros (r & _ & (c & _ & H)%existsb_seq)%existsb_seq.
  apply andb_prop in H as [_ H]. by apply bool_decide_eq_true in H.
Qed.

Lemma pieceCell_inj (c1 c2 : ConnectFourColor) : pieceCell c1 = pieceCell c2 → c1 = c2.
Proof. by destruct c1, c2. Qed.

Lemma pieceCell_nonempty (c : ConnectFourColor) : pieceCell c ≠ CellEmpty.
Proof. by destruct c. Qed.

(** ** The calls in closed form *)

Lemma leave_run (player : Player.t) (w : World) :
  _leave player w =
  if seated (Player.id player) (state (this w))
  then (Normal tt,
        mkWorld (with_state (leaveState (Player.id player) (state (this w))) (this w))
          (constructed w))
  else (Throw (InvalidParametersError PLAYER_NOT_IN_GAME_MESSAGE), w).
Proof.
  destruct w as [g cs]. js_destruct g. unfold seated, leaveState, clearRed, clearYellow.
  js_unfold. destruct st; js_run; reflexivity.
Qed.

Lemma join_run (player : Player.t) (w : World) :
  _join player w =
  if seated (Player.id player) (state (this w)) then
    (Throw (InvalidParametersError PLAYER_ALREADY_IN_GAME_MESSAGE), w)
  else if full (state (this w)) then
    (Throw (InvalidParametersError GAME_FULL_MESSAGE), w)
  else
    (Normal tt,
     mkWorld (with_state (joinState (this w) (Player.id player)) (this w))
       (constructed w)).
Proof.
  destruct w as [g cs]. js_destruct g.
  unfold seated, full, joinState, joinSeat, takeSeat.
  js_unfold. destruct (truthy r), (truthy y); js_run; reflexivity.
Qed.

Lemma startGame_run (player : Player.t) (w : World) :
  startGame player w =
  if bool_decide (status (state (this w)) ≠ WAITING_TO_START) then
    (Throw (InvalidParametersError GAME_NOT_STARTABLE_MESSAGE), w)
  else if negb (seated (Player.id player) (state (this w))) then
    (Throw (InvalidParametersError PLAYER_NOT_IN_GAME_MESSAGE), w)
  else
    (Normal tt,
     mkWorld (with_state (startState (this w) (Player.id player)) (this w))
       (constructed w)).
Proof.
  destruct w as [g cs]. js_destruct g.
  unfold seated, startState, startFirstPlayer.
  js_unfold.
  destruct rr as [[]|], yr as [[]|]; js_run; reflexivity.
Qed.

Lemma checkValidMove_run (mv : GameMove) (w : World) :
  _checkValidMove mv w =
  if accepts (this w) mv then (Normal tt, w)
  else (Throw (InvalidParametersError
                 (if bool_decide (status (state (this w)) ≠ IN_PROGRESS)
                  then GAME_NOT_IN_PROGRESS_MESSAGE
                  else if negb (seated (playerID mv) (state (this w)))
                  then PLAYER_NOT_IN_GAME_MESSAGE
                  else if negb (_isTurn (this w) mv) then MOVE_NOT_YOUR_TURN_MESSAGE
                  else BOARD_POSITION_NOT_VALID_MESSAGE)), w).
Proof.
  destruct w as [g cs]. unfold accepts. cbn [this].
  pose proof (isTurn_seated g mv) as Hseated.
  js_unfold. unfold seated in *.
  destruct (_isTurn g mv), (_checkValidBoardPosition g mv),
    (truthy (red (state g))), (truthy (yellow (state g)));
    js_run; try reflexivity;
    specialize (Hseated eq_refl); cbn in Hseated; discriminate.
Qed.

Lemma determineWinner_run (m : ConnectFourMove) (b : Board) (w : World) :
  _determineWinner m b w =
  (Normal tt, mkWorld (with_state (outcome m b (state (this w))) (this w)) (constructed w)).
Proof.
  destruct w as [g cs]. js_destruct g. unfold _determineWinner, outcome, anyWin.
  destruct (horizontalWin b), (verticalWin b), (diagonalWin b 1), (diagonalWin b (-1));
    cbn [orb]; js_unfold; destruct (gamePiece m); js_run; reflexivity.
Qed.

(** Indexing a missing row is the only way [_updateBoard] throws. *)
Lemma updateBoard_throws (log : list ConnectFourMove) (w w' : World) (e : Error) :
  _updateBoard log w = (Throw e, w') → e = TypeError.
Proof.
  revert w. induction log as [|m log IH]; intros w; [done|].
  cbn [_updateBoard]. unfold bind at 1, getThis.
  destruct (js_get _ _) as [cells|]; [|by intros [= <- _]].
  unfold bind, putBoard. apply IH.
Qed.

(** An [InvalidParametersError] of [applyMove] comes from [_checkValidMove],
    before the first write, whatever the state. *)
Lemma applyMove_invalid (mv : GameMove) (g : ConnectFourGame) (m : Message) (w : World) :
  call (applyMove mv) g = (Throw (InvalidParametersError m), w) → this w = g.
Proof.
  unfold call, applyMove. unfold bind at 1. rewrite checkValidMove_run. cbn [this].
  destruct (accepts g mv); [|by intros [= _ <-]].
  unfold bind at 1, getState. unfold bind at 1, putState. unfold bind at 1.
  unfold bind at 1.
  destruct (_updateBoard _ _) as [[[]|e] w1] eqn:Hupd.
  - unfold bind, getThis. by rewrite determineWinner_run.
  - apply updateBoard_throws in Hupd as ->. discriminate.
Qed.

Lemma accepts_typed (g : ConnectFourGame) (mv : GameMove) :
  accepts g mv = true → typed (move mv).
Proof.
  unfold accepts, _checkValidBoardPosition, typed.
  rewrite !andb_true_iff. intros [_ Hpos].
  repeat case_bool_decide; cbn in Hpos; try discriminate; lia.
Qed.

Lemma accepts_inv (g : ConnectFourGame) (mv : GameMove) :
  accepts g mv = true →
  status (state g) = IN_PROGRESS
  ∧ _isTurn g mv = true
  ∧ typed (move mv)
  ∧ cellAt (_board g) (row (move mv)) (col (move mv)) = Some CellEmpty
  ∧ (row (move mv) = 5%Z
     ∨ cellAt (_board g) (row (move mv) + 1) (col (move mv)) ≠ Some CellEmpty).
Proof.
  intros Hacc. pose proof (accepts_typed g mv Hacc) as Htyped.
  unfold accepts, _checkValidBoardPosition in Hacc.
  apply andb_prop in Hacc as [[Hst Hturn]%andb_prop Hpos].
  apply bool_decide_eq_true in Hst.
  repeat split; try done; try apply Htyped.
  - destruct (_ || _); [done|].
    destruct (decide (cellAt (_board g) (row (move mv)) (col (move mv))
                      = Some CellEmpty)) as [|Hne]; [done|].
    by rewrite (bool_decide_eq_true_2 _ Hne) in Hpos.
  - destruct (_ || _); [done|].
    destruct (bool_decide (cellAt _ _ _ ≠ _)); [done|].
    destruct (decide (row (move mv) = 5%Z)) as [|Hrow]; [by left|right].
    rewrite (bool_decide_eq_true_2 _ Hrow) in Hpos. cbn [andb] in Hpos.
    intros Hbelow. by rewrite (bool_decide_eq_true_2 _ Hbelow) in Hpos.
Qed.

Lemma accepts_withPiece (g : ConnectFourGame) (mv : GameMove) (piece : ConnectFourColor) :
  accepts g (withPiece mv piece) = accepts g mv.
Proof. reflexivity. Qed.

Lemma applyMove_run (mv : GameMove) (g : ConnectFourGame) :
  well_typed g →
  call (applyMove mv) g =
  if accepts g mv then (Normal tt, mkWorld (moved g (move mv)) [])
  else (Throw (InvalidParametersError
                 (if bool_decide (status (state g) ≠ IN_PROGRESS)
                  then GAME_NOT_IN_PROGRESS_MESSAGE
                  else if negb (seated (playerID mv) (state g))
                  then PLAYER_NOT_IN_GAME_MESSAGE
                  else if negb (_isTurn g mv) then MOVE_NOT_YOUR_TURN_MESSAGE
                  else BOARD_POSITION_NOT_VALID_MESSAGE)), mkWorld g []).
Proof.
  intros [Hb Hlog]. unfold call, applyMove.
  unfold bind at 1. rewrite checkValidMove_run. cbn [this].
  destruct (accepts g mv) eqn:Hacc; [|done].
  apply accepts_typed in Hacc.
  unfold bind at 1, getState. cbn [this].
  unfold bind at 1, putState. cbn [this constructed].
  unfold bind at 1. cbn [this state with_state moves set_moves].
  unfold bind at 1.
  rewrite updateBoard_run; cbn [this constructed _board with_state]; [|done|].
  - unfold bind, getThis. cbn [this _board with_board].
    rewrite determineWinner_run. by destruct g.
  - apply Forall_app. split; [done|]. by apply Forall_singleton.
Qed.

Lemma join_after (player : Player.t) (g : ConnectFourGame) :
  after (join player) g =
  if seated (Player.id player) (state g) || full (state g) then g
  else with_players (_players g ++ [player])
         (with_state (joinState g (Player.id player)) g).
Proof.
  unfold after, call, join. unfold bind at 1. rewrite join_run. cbn [this].
  destruct (seated _ _); [done|]. destruct (full _); done.
Qed.

Lemma leave_after (player : Player.t) (g : ConnectFourGame) :
  after (leave player) g =
  if seated (Player.id player) (state g)
  then with_players (filter (λ p, Player.id p ≠ Player.id player) (_players g))
         (with_state (leaveState (Player.id player) (state g)) g)
  else g.
Proof.
  unfold after, call, leave. unfold bind at 1. rewrite leave_run. cbn [this].
  destruct (seated _ _); done.
Qed.

Lemma startGame_after (player : Player.t) (g : ConnectFourGame) :
  after (startGame player) g =
  if bool_decide (status (state g) = WAITING_TO_START)
     && seated (Player.id player) (state g)
  then with_state (startState g (Player.id player)) g
  else g.
Proof.
  unfold after, call. rewrite startGame_run. cbn [this].
  repeat case_bool_decide; try done; cbn; destruct (seated _ _); done.
Qed.

Lemma applyMove_after (mv : GameMove) (g : ConnectFourGame) :
  well_typed g →
  after (applyMove mv) g = if accepts g mv then moved g (move mv) else g.
Proof.
  intros Hg. unfold after. rewrite applyMove_run by done.
  destruct (accepts g mv); done.
Qed.

Lemma applyMove_returns (mv : GameMove) (g : ConnectFourGame) :
  returns (applyMove mv) g = true → accepts g mv = true.
Proof.
  unfold returns, call, applyMove. unfold bind at 1.
  rewrite checkValidMove_run. cbn [this].
  by destruct (accepts g mv).
Qed.

Lemma accepts_returns (mv : GameMove) (g : ConnectFourGame) :
  well_typed g → accepts g mv = true → returns (applyMove mv) g = true.
Proof.
  intros Hg Hacc. unfold returns. rewrite applyMove_run by done. by rewrite Hacc.
Qed.

Lemma join_returns (player : Player.t) (g : ConnectFourGame) :
  returns (_join player) g = true →
  seated (Player.id player) (state g) = false
  ∧ full (state g) = false
  ∧ after (_join player) g = with_state (joinState g (Player.id player)) g.
Proof.
  unfold returns, after, call. rewrite join_run. cbn [this].
  destruct (seated _ _); [done|]. destruct (full _); done.
Qed.

Lemma startGame_returns (player : Player.t) (g : ConnectFourGame) :
  returns (startGame player) g = true →
  after (startGame player) g = with_state (startState g (Player.id player)) g.
Proof.
  unfold returns, after, call. rewrite startGame_run. cbn [this].
  case_bool_decide; [done|]. by destruct (negb _).
Qed.

Lemma outcome_frame (m : ConnectFourMove) (b : Board) (s : ConnectFourGameState) :
  moves (outcome m b s) = moves s
  ∧ red (outcome m b s) = red s
  ∧ yellow (outcome m b s) = yellow s
  ∧ firstPlayer (outcome m b s) = firstPlayer s
  ∧ (status (outcome m b s) = OVER ∨ status (outcome m b s) = status s)
  ∧ (anyWin b = true → status (outcome m b s) = OVER).
Proof.
  unfold outcome. destruct (anyWin b); [|destruct (tieScan _ _)]; cbn.
  all: repeat split; auto; discriminate.
Qed.

(** ** Invariants of reachable games *)

Lemma Inv0_well_typed (g : ConnectFourGame) : Inv0 g → well_typed g.
Proof. intros []. by split. Qed.

Lemma truthy_Some (o : option PlayerID) :
  o ≠ Some EmptyString → truthy o = bool_decide (o ≠ None).
Proof.
  destruct o as [i|]; intros Ho; [|done]. cbn [truthy].
  rewrite (bool_decide_eq_true_2 (i ≠ EmptyString)) by (intros ->; by apply Ho).
  by rewrite bool_decide_eq_true_2.
Qed.

(** With proper seats, a game that is not full is waiting for players and
    has a free seat. *)
Lemma not_full_free (s : ConnectFourGameState) :
  seats_ok s → full s = false →
  status s = WAITING_FOR_PLAYERS ∧ (red s = None ∨ yellow s = None).
Proof.
  unfold seats_ok, full. intros (Hr & Hy & Hd & Hs).
  rewrite !truthy_Some by done. intros Hfull.
  assert (red s = None ∨ yellow s = None) as Hfree.
  { destruct (red s) as [ri|] eqn:Er; [|by left].
    destruct (yellow s) as [yi|] eqn:Ey; [|by right].
    destruct Hd as [?|Hd]; [done|].
    rewrite !bool_decide_eq_true_2 in Hfull by done. done. }
  split; [|done].
  destruct (decide (status s = WAITING_FOR_PLAYERS)) as [|Hst]; [done|].
  destruct (Hs Hst). destruct Hfree; done.
Qed.

(** The cascade of [_join] always lands on a free seat. *)
Lemma joinSeat_free (g : ConnectFourGame) (i : PlayerID) :
  red (state g) = None ∨ yellow (state g) = None →
  seat (joinSeat g i) (state g) = None.
Proof.
  unfold joinSeat.
  destruct (red (state g)) as [ri|] eqn:Er, (yellow (state g)) as [yi|] eqn:Ey.
  { intros [?|?]; discriminate. }
  all: intros _; repeat (case_bool_decide; cbn [andb]); try congruence.
  all: cbn [seat]; congruence.
Qed.

Lemma joinState_ok (g : ConnectFourGame) (i : PlayerID) :
  i ≠ EmptyString → seats_ok (state g) →
  seated i (state g) = false → full (state g) = false →
  seats_ok (joinState g i)
  ∧ moves (joinState g i) = moves (state g)
  ∧ status (joinState g i) ≠ OVER.
Proof.
  intros Hi Hok Hseated Hfull.
  destruct (not_full_free _ Hok Hfull) as [Hst Hfree].
  pose proof (joinSeat_free g i Hfree) as Hseat.
  unfold joinState. destruct (joinSeat g i), (state g) as [ms st fp r y rr yr w].
  all: unfold seats_ok, seated in *; cbn in *; subst.
  all: apply orb_false_elim in Hseated as [Hsr Hsy].
  all: apply bool_decide_eq_false in Hsr, Hsy.
  all: destruct Hok as (Hr & Hy & Hd & Hs).
  all: repeat case_bool_decide; cbn.
  all: repeat split; try congruence.
  all: try (right; congruence); try (left; congruence).
  all: try (intros _; split; congruence).
Qed.

Lemma leaveState_ok (i : PlayerID) (s : ConnectFourGameState) :
  seats_ok s → seated i s = true →
  seats_ok (leaveState i s)
  ∧ moves (leaveState i s) = moves s
  ∧ (status (leaveState i s) ≠ OVER → status s ≠ OVER).
Proof.
  destruct s as [ms st fp r y rr yr w].
  unfold seats_ok, seated, leaveState, clearRed, clearYellow.
  cbn [state red yellow status moves]. intros (Hr & Hy & Hd & Hs) _.
  destruct st; repeat case_bool_decide; cbn.
  all: repeat split; try congruence.
  all: try (left; congruence); try (by apply Hs).
  all: try (intros Hx; by destruct Hx).
  all: try (destruct Hd; [by left|by right]).
  all: destruct r; [right; congruence|by left].
Qed.

Lemma startState_ok (g : ConnectFourGame) (i : PlayerID) :
  seats_ok (state g) → status (state g) = WAITING_TO_START →
  seats_ok (startState g i)
  ∧ moves (startState g i) = moves (state g)
  ∧ status (startState g i) ≠ OVER.
Proof.
  unfold startState. generalize (startFirstPlayer g). intros c.
  destruct (state g) as [ms st fp r y rr yr w].
  unfold seats_ok. cbn [state red yellow status moves]. intros (Hr & Hy & Hd & Hs) ->.
  cbn. case_bool_decide; cbn; repeat js_if; cbn.
  all: repeat split; try congruence; by apply Hs.
Qed.

Lemma moved_board (g : ConnectFourGame) (m : ConnectFourMove) :
  Inv0 g → typed m →
  _board (moved g m) = setCell (_board g) (col m) (row m) (gamePiece m).
Proof.
  intros [_ _ Hlog Hreplay _ _] Hm. cbn. rewrite replayOnto_app. cbn.
  rewrite Hreplay. unfold replay.
  by rewrite replayOnto_idem by (done || apply board_ok_emptyBoard).
Qed.

Lemma moved_Inv0 (g : ConnectFourGame) (mv : GameMove) :
  Inv0 g → accepts g mv = true → Inv0 (moved g (move mv)).
Proof.
  intros Hg Hacc.
  destruct (accepts_inv g mv Hacc) as (Hst & Hturn & Htyped & Hcell & Hbelow).
  pose proof (moved_board g (move mv) Hg Htyped) as Hboard.
  destruct Hg as [Hseats Hb Hlog Hreplay Hnorun Hgrav].
  unfold moved in *. cbn [_board] in Hboard.
  set (log := moves (state g) ++ [move mv]) in *.
  set (b := replayOnto (_board g) log) in *.
  destruct (outcome_frame (move mv) b (set_moves log (state g)))
    as (Hmoves & Hred & Hyellow & _ & Hstatus & Hwin).
  split; cbn [state _board].
  - unfold seats_ok in *. rewrite Hred, Hyellow. cbn.
    destruct Hseats as (? & ? & ? & Hs). repeat split; try done.
    all: apply Hs; congruence.
  - rewrite Hboard. by apply setCell_ok.
  - rewrite Hmoves. cbn. subst log.
    apply Forall_app. split; [done|]. by apply Forall_singleton.
  - rewrite Hmoves. cbn [moves set_moves]. subst log.
    rewrite replay_snoc, <- Hreplay. exact Hboard.
  - intros Hnot. destruct (anyWin b); [|done]. by destruct Hnot, Hwin.
  - rewrite Hboard. destruct Htyped. by apply gravity_setCell.
Qed.

Lemma new_Inv0 (priorGame : option ConnectFourGame) :
  Inv0 (ConnectFourGame_new priorGame).
Proof.
  split; cbn.
  - unfold seats_ok. cbn. repeat split; (done || by left).
  - apply board_ok_emptyBoard.
  - constructor.
  - done.
  - intros _. by vm_compute.
  - apply gravity_emptyBoard.
Qed.

Lemma perform_Inv0 (c : Command) (g : ConnectFourGame) :
  admissible c → Inv0 g → Inv0 (after (perform c) g).
Proof.
  intros Hc Hg. destruct c as [p|p|p|mv]; cbn [perform admissible] in *.
  - rewrite join_after.
    destruct (seated _ _) eqn:Hseated; [done|].
    destruct (full _) eqn:Hfull; [done|]. cbn [orb].
    destruct Hg as [Hseats Hb Hlog Hreplay Hnorun Hgrav].
    destruct (joinState_ok g (Player.id p)) as (? & Hmoves & Hst); [done..|].
    destruct (not_full_free _ Hseats Hfull) as [Hwait _].
    split; cbn; rewrite ?Hmoves; try done.
    intros _. apply Hnorun. congruence.
  - rewrite leave_after.
    destruct (seated _ _) eqn:Hseated; [|done].
    destruct Hg as [Hseats Hb Hlog Hreplay Hnorun Hgrav].
    destruct (leaveState_ok (Player.id p) (state g)) as (? & Hmoves & Hst); [done..|].
    split; cbn; rewrite ?Hmoves; auto.
  - rewrite startGame_after.
    case_bool_decide as Hwait; [|done]. cbn [andb].
    destruct (seated _ _) eqn:Hseated; [|done].
    destruct Hg as [Hseats Hb Hlog Hreplay Hnorun Hgrav].
    destruct (startState_ok g (Player.id p)) as (? & Hmoves & Hst); [done..|].
    split; cbn; rewrite ?Hmoves; try done.
    intros _. apply Hnorun. congruence.
  - rewrite applyMove_after by by apply Inv0_well_typed.
    destruct (accepts g mv) eqn:Hacc; [|done]. by apply moved_Inv0.
Qed.

Lemma perform_lastGame (c : Command) (g : ConnectFourGame) :
  Inv0 g → _lastGame (after (perform c) g) = _lastGame g.
Proof.
  intros Hg. destruct c as [p|p|p|mv]; cbn [perform].
  - rewrite join_after. by destruct (_ || _).
  - rewrite leave_after. by destruct (seated _ _).
  - rewrite startGame_after. by destruct (_ && _).
  - rewrite applyMove_after by by apply Inv0_well_typed. by destruct (accepts _ _).
Qed.

(** Every reachable game, and the prior game it refers to, satisfies the
    invariant. *)
Lemma reachable_Inv (g : ConnectFourGame) : reachable g → Inv g.
Proof.
  induction 1 as [|l _ [IHl _]|g c _ [IH0 IHl] Hc|g l c _ [IH0 IHl] Hl Hc].
  - split; [apply new_Inv0|]. intros l [=].
  - split; [apply new_Inv0|]. by intros ? [= <-].
  - split; [by apply perform_Inv0|].
    intros l. rewrite perform_lastGame by done. apply IHl.
  - split.
    + destruct IH0. by split.
    + intros ? [= <-]. apply perform_Inv0; [done|]. by apply IHl.
Qed.

Lemma reachable_performAll (cs : list Command) (g : ConnectFourGame) :
  reachable g → Forall admissible cs → reachable (performAll cs g).
Proof.
  intros Hg Hcs. revert g Hg.
  induction Hcs as [|c cs Hc _ IH]; intros g Hg; [exact Hg|].
  cbn. apply IH. by apply reach_call.
Qed.

Lemma admissible_moves (mvs : list GameMove) : Forall admissible (ApplyMove <$> mvs).
Proof. induction mvs; by constructor. Qed.

Lemma reachable_started : reachable started.
Proof.
  apply reachable_performAll; [apply reach_new|].
  repeat constructor; discriminate.
Defined.

Lemma reachable_sixMoves : reachable sixMoves.
Proof.
  apply reachable_performAll; [apply reachable_started|apply admissible_moves].
Defined.

Lemma reachable_fortyOne : reachable fortyOne.
Proof.
  apply reachable_performAll; [apply reachable_started|].
  repeat constructor.
Defined.

Lemma reachable_carolSeated : reachable carolSeated.
Proof.
  apply reachable_performAll.
  - apply reach_next. apply reachable_performAll; [apply reach_new|].
    repeat constructor; discriminate.
  - repeat constructor; discriminate.
Defined.

Lemma well_typed_started : well_typed started.
Proof. split; [apply board_ok_emptyBoard|constructor]. Defined.

(** ** Leave (C1, C9) *)

Lemma leaveState_firstPlayer (i : PlayerID) (s : ConnectFourGameState) :
  firstPlayer (leaveState i s) = firstPlayer s.
Proof.
  unfold leaveState, clearRed, clearYellow.
  destruct (status s); repeat case_bool_decide; reflexivity.
Qed.

(** The guard of the leave-time first-mover assignment (lines 220-228) is
    never satisfied: the block before it has already cleared [red] whenever
    the status was WAITING_TO_START. *)
Lemma leave_firstPlayer (player : Player.t) (g : ConnectFourGame) :
  firstPlayer (state (after (_leave player) g)) = firstPlayer (state g).
Proof.
  unfold after, call. rewrite leave_run. cbn [this].
  destruct (seated _ _); [|done]. apply leaveState_firstPlayer.
Qed.

(** [_leave] never gets to [_createNewGame]: once the status is OVER the
    early [return] is taken, so a call constructs no game. *)
Lemma leave_constructs_nothing (player : Player.t) (g : ConnectFourGame) :
  constructed (snd (call (_leave player) g)) = [].
Proof.
  unfold call. rewrite leave_run. cbn [this]. by destruct (seated _ _).
Qed.

(** C1. At a Round in progress, the Red player's Leave turns the status to
    OVER and declares Yellow the winner, and the call has constructed no
    game at all: no successor Round exists after it. *)
Theorem leave_in_progress_no_successor :
  status (state started) = IN_PROGRESS
  ∧ fst (call (_leave alice) started) = Normal tt
  ∧ status (state (after (_leave alice) started)) = OVER
  ∧ winner (state (after (_leave alice) started)) = Some "bob"
  ∧ constructed (snd (call (_leave alice) started)) = [].
Proof. vm_compute. repeat split. Qed.

(** C9. For every Round state and every player, seated or not, a Leave call
    leaves the first-mover field as it was, through the class's [_leave] and
    through the base class's [leave] alike. *)
Theorem leave_preserves_firstPlayer (player : Player.t) (g : ConnectFourGame) :
  firstPlayer (state (after (_leave player) g)) = firstPlayer (state g)
  ∧ firstPlayer (state (after (leave player) g)) = firstPlayer (state g).
Proof.
  split; [apply leave_firstPlayer|].
  rewrite leave_after. destruct (seated _ _); [|done].
  apply leaveState_firstPlayer.
Qed.

(** ** Errors (C2) *)

(** C2. Each of Join, StartGame, ApplyMove and Leave either returns or
    throws, and whenever it throws an [InvalidParametersError] the whole
    object (status, seats, ready flags, first mover, move log, winner,
    board) is exactly as it was before the call: this holds at every game
    and for every input.  Join, StartGame and Leave throw nothing else, and
    at a game within its TypeScript types neither does ApplyMove.  Join and
    Leave are covered both as the class's [_join] and [_leave] and as the
    base class's [join] and [leave]. *)
Theorem errors_leave_the_state_unchanged (g : ConnectFourGame) :
  (∀ player, atomic (_join player) g)
  ∧ (∀ player, atomic (startGame player) g)
  ∧ (∀ player, atomic (_leave player) g)
  ∧ (∀ player, atomic (join player) g)
  ∧ (∀ player, atomic (leave player) g)
  ∧ (∀ mv m w,
       call (applyMove mv) g = (Throw (InvalidParametersError m), w) → this w = g)
  ∧ (well_typed g → ∀ mv, atomic (applyMove mv) g).
Proof.
  unfold atomic, call. repeat split; try intros x.
  - rewrite join_run. cbn [this].
    destruct (seated _ _); [eauto|]. destruct (full _); eauto.
  - rewrite startGame_run. cbn [this].
    case_bool_decide; [eauto|]. destruct (negb _); eauto.
  - rewrite leave_run. cbn [this]. destruct (seated _ _); eauto.
  - unfold join. unfold bind at 1. rewrite join_run. cbn [this].
    destruct (seated _ _); [eauto|]. destruct (full _); [eauto|]. by cbn.
  - unfold leave. unfold bind at 1. rewrite leave_run. cbn [this].
    destruct (seated _ _); [by cbn|eauto].
  - intros m w. apply applyMove_invalid.
  - intros mv. pose proof (applyMove_run mv g x) as Hrun.
    unfold call in Hrun. rewrite Hrun. destruct (accepts g mv); eauto.
Qed.

Lemma errors_leave_the_state_unchanged_witness :
  well_typed started
  ∧ fst (call (_join alice) started)
    = Throw (InvalidParametersError PLAYER_ALREADY_IN_GAME_MESSAGE)
  ∧ atomic (_join alice) started
  ∧ fst (call (applyMove lastMove) started)
    = Throw (InvalidParametersError MOVE_NOT_YOUR_TURN_MESSAGE)
  ∧ atomic (applyMove lastMove) started.
Proof.
  split; [exact well_typed_started|].
  destruct (errors_leave_the_state_unchanged started)
    as (Hjoin & _ & _ & _ & _ & _ & Hmove).
  split; [vm_compute; reflexivity|]. split; [exact (Hjoin alice)|].
  split; [vm_compute; reflexivity|].
  exact (Hmove well_typed_started lastMove).
Defined.

(** ** Win and tie (C3) *)

(** C3. After a move accepted at a reachable game: if the board holds a
    run of four of a color, horizontal, vertical or diagonal, the status is
    OVER and the winner is the occupant of that color's seat, whatever the
    length of the log; if it holds no run and the log has 42 moves, the
    status is OVER and the winner is unset; otherwise the game goes on. *)
Theorem win_before_tie (g : ConnectFourGame) (mv : GameMove) :
  reachable g → returns (applyMove mv) g = true →
  let g' := after (applyMove mv) g in
  (∀ c, hasRun (_board g') (pieceCell c) →
        status (state g') = OVER ∧ winner (state g') = seat c (state g'))
  ∧ ((∀ x, ¬ hasRun (_board g') x) → length (moves (state g')) = 42%nat →
     status (state g') = OVER ∧ winner (state g') = None)
  ∧ ((∀ x, ¬ hasRun (_board g') x) → length (moves (state g')) ≠ 42%nat →
     status (state g') = IN_PROGRESS ∧ winner (state g') = winner (state g)).
Proof.
  intros [Hg _]%reachable_Inv Hacc%applyMove_returns g'. subst g'.
  rewrite applyMove_after, Hacc by by apply Inv0_well_typed.
  destruct (accepts_inv g mv Hacc) as (Hst & _ & Htyped & Hcell & _).
  pose proof (moved_board g (move mv) Hg Htyped) as Hboard.
  pose proof (moved_Inv0 g mv Hg Hacc) as [_ Hb' _ _ _ _].
  destruct Hg as [_ Hb _ _ Hnorun _].
  assert (Hnew : cellAt (_board (moved g (move mv))) (row (move mv)) (col (move mv))
                 = Some (pieceCell (gamePiece (move mv)))).
  { rewrite Hboard, cellAt_setCell by (done || apply Htyped).
    by rewrite bool_decide_eq_true_2. }
  unfold moved in *. cbn [_board state] in *.
  set (log := moves (state g) ++ [move mv]) in *.
  set (b := replayOnto (_board g) log) in *.
  unfold outcome. cbn [moves set_moves].
  split; [|split].
  - intros c Hrun.
    assert (c = gamePiece (move mv)) as ->.
    { rewrite Hboard in Hrun. destruct Htyped.
      apply hasRun_setCell in Hrun as [Hold|Heq]; [|by apply pieceCell_inj|done..].
      assert (anyWin (_board g) = true) as Hwin by (apply anyWin_iff; eauto).
      rewrite Hnorun in Hwin by congruence. done. }
    rewrite (proj2 (anyWin_iff b Hb')) by eauto. cbn.
    by destruct (gamePiece (move mv)).
  - intros Hnone Hlen.
    destruct (anyWin b) eqn:Hwin.
    { apply anyWin_iff in Hwin as [x Hx]; [|done]. by destruct (Hnone x). }
    assert (length log = 42%nat) as Hlog
      by (destruct (tieScan _ _) in Hlen; exact Hlen).
    rewrite (tieScan_true b _ _ _ _ Hb' Hnew); [done|apply pieceCell_nonempty|done].
  - intros Hnone Hlen.
    destruct (anyWin b) eqn:Hwin.
    { apply anyWin_iff in Hwin as [x Hx]; [|done]. by destruct (Hnone x). }
    assert (length log ≠ 42%nat) as Hlog
      by (destruct (tieScan _ _) in Hlen; exact Hlen).
    rewrite tieScan_false by done. cbn. done.
Qed.

Lemma win_before_tie_witness :
  reachable sixMoves
  ∧ returns (applyMove winningMove) sixMoves = true
  ∧ status (state (after (applyMove winningMove) sixMoves)) = OVER
  ∧ winner (state (after (applyMove winningMove) sixMoves)) = Some "alice"
  ∧ reachable fortyOne
  ∧ returns (applyMove lastMove) fortyOne = true
  ∧ status (state (after (applyMove lastMove) fortyOne)) = OVER
  ∧ winner (state (after (applyMove lastMove) fortyOne)) = None.
Proof.
  assert (returns (applyMove winningMove) sixMoves = true) as Hret
    by (vm_compute; reflexivity).
  destruct (win_before_tie sixMoves winningMove reachable_sixMoves Hret)
    as (Hwin & _ & _).
  destruct (Hwin Red) as [Hst Hw].
  { left. exists 5%Z, 0%Z. apply line4_iff.
    split; [discriminate|]. vm_compute. repeat split. }
  assert (returns (applyMove lastMove) fortyOne = true) as Hret'
    by (vm_compute; reflexivity).
  destruct (win_before_tie fortyOne lastMove reachable_fortyOne Hret')
    as (_ & Htie & _).
  destruct Htie as [Hst' Hw'].
  { intros x Hx.
    assert (anyWin (_board (after (applyMove lastMove) fortyOne)) = true) as Hany.
    { apply anyWin_iff; [|by exists x].
      vm_compute. split; [reflexivity|repeat constructor]. }
    vm_compute in Hany. discriminate Hany. }
  { vm_compute. reflexivity. }
  split; [exact reachable_sixMoves|]. split; [exact Hret|].
  split; [exact Hst|]. split; [rewrite Hw; vm_compute; reflexivity|].
  split; [exact reachable_fortyOne|]. split; [exact Hret'|].
  split; [exact Hst'|exact Hw'].
Defined.

(** ** Turns (C4) *)

(** C4. For every Round state with move-log length [n] and every submitted
    move, [_isTurn] accepts the move if and only if the submitting player
    identity occupies the seat whose color is the first-mover when [n] is
    even and the opposite color when [n] is odd; nothing is assumed about
    which seats are occupied. *)
Theorem isTurn_iff_active_seat (g : ConnectFourGame) (mv : GameMove) :
  _isTurn g mv = true ↔
  seat (activeColor (firstPlayer (state g)) (length (moves (state g)))) (state g)
  = Some (playerID mv).
Proof. rewrite isTurn_eq. apply bool_decide_eq_true. Qed.

(** ** Seats (C5) *)

(** C5. At a reachable game with a prior game, when Join accepts a player:
    one who held Red before gets Red if it is free, and otherwise Yellow,
    which is then free; one who held Yellow before gets Yellow if it is
    free, and otherwise Red, which is then free; one who held no seat
    before gets Red if it is free and otherwise Yellow.  The other seat is
    left as it was. *)
Theorem join_seat_continuity (g l : ConnectFourGame) (player : Player.t) :
  reachable g → _lastGame g = Some l → returns (_join player) g = true →
  let i := Player.id player in
  let s := state g in
  let s' := state (after (_join player) g) in
  (red (state l) = Some i → red s = None →
   red s' = Some i ∧ yellow s' = yellow s)
  ∧ (yellow (state l) = Some i → yellow s = None →
     yellow s' = Some i ∧ red s' = red s)
  ∧ (red (state l) = Some i → red s ≠ None →
     yellow s = None ∧ yellow s' = Some i ∧ red s' = red s)
  ∧ (yellow (state l) = Some i → yellow s ≠ None →
     red s = None ∧ red s' = Some i ∧ yellow s' = yellow s)
  ∧ (red (state l) ≠ Some i → yellow (state l) ≠ Some i →
     (red s = None → red s' = Some i ∧ yellow s' = yellow s)
     ∧ (red s ≠ None → yellow s = None ∧ yellow s' = Some i ∧ red s' = red s)).
Proof.
  intros [[Hseats _ _ _ _ _] Hlast]%reachable_Inv Hl Hret i s s'.
  destruct (Hlast l Hl) as [(_ & _ & Hdl & _) _ _ _ _ _].
  destruct (join_returns player g Hret) as (Hseated & Hfull & Hafter).
  destruct (not_full_free _ Hseats Hfull) as [_ Hfree].
  subst s'. rewrite Hafter. cbn [state with_state].
  unfold joinState, joinSeat, lastRed, lastYellow. rewrite Hl.
  rewrite (bool_decide_eq_true_2 (is_Some (Some l))) by eauto.
  cbn [mbind option_bind]. fold i. subst s.
  destruct (state g) as [ms st fp r y rr yr w]. cbn [red yellow] in *.
  clear Hafter Hseated Hfull Hseats Hret Hlast.
  repeat split; intros.
  all: repeat (case_bool_decide; cbn [andb takeSeat]); cbn; try congruence.
  all: try (destruct Hfree; congruence).
  all: try (destruct Hdl; congruence).
Qed.

Lemma join_seat_continuity_witness :
  reachable carolSeated
  ∧ _lastGame carolSeated = Some priorGame
  ∧ returns (_join alice) carolSeated = true
  ∧ red (state priorGame) = Some "alice"
  ∧ red (state carolSeated) = Some "carol"
  ∧ yellow (state (after (_join alice) carolSeated)) = Some "alice".
Proof.
  assert (returns (_join alice) carolSeated = true) as Hret
    by (vm_compute; reflexivity).
  destruct (join_seat_continuity carolSeated priorGame alice
              reachable_carolSeated eq_refl Hret) as (_ & _ & Htaken & _).
  destruct Htaken as (_ & Hy & _); [reflexivity|discriminate|].
  split; [exact reachable_carolSeated|]. split; [reflexivity|].
  split; [exact Hret|]. split; [reflexivity|]. split; [reflexivity|exact Hy].
Defined.

(** ** First mover (C6) *)

Lemma startState_firstPlayer (g : ConnectFourGame) (i : PlayerID) :
  firstPlayer (startState g i) = startFirstPlayer g.
Proof.
  unfold startState. cbn. case_bool_decide; cbn; by repeat js_if.
Qed.

(** With no prior game the first mover is Red; with a prior game in which
    one of [_players] sat it is the color opposite the prior game's first
    mover; with a prior game and nobody carried over it is whatever it was
    before the call. *)
Lemma startGame_firstPlayer (player : Player.t) (g : ConnectFourGame) :
  returns (startGame player) g = true →
  firstPlayer (state (after (startGame player) g)) =
  match _lastGame g with
  | None => Red
  | Some l => if carriedOver g then opposite (firstPlayer (state l))
              else firstPlayer (state g)
  end.
Proof.
  intros Hret. rewrite (startGame_returns _ _ Hret). cbn [state with_state].
  rewrite startState_firstPlayer. unfold startFirstPlayer, lastFirstPlayer.
  unfold carriedOver.
  destruct (_lastGame g) as [l|] eqn:Hl; cbn.
  - destruct (existsb _ _); cbn; [|done].
    destruct (firstPlayer (state l)); by repeat case_bool_decide.
  - done.
Qed.

(** C6. In [rejoined] neither seated player (dave on Red, carol on Yellow)
    held a seat in the prior game, the status is WAITING_TO_START, and
    dave's StartGame succeeds and starts the Round; yet the first mover is
    Yellow, not Red. *)
Theorem startGame_first_mover_not_reset :
  reachable rejoined
  ∧ status (state rejoined) = WAITING_TO_START
  ∧ red (state rejoined) = Some "dave"
  ∧ yellow (state rejoined) = Some "carol"
  ∧ _players rejoined = [carol; dave]
  ∧ lastRed rejoined = Some "alice"
  ∧ lastYellow rejoined = Some "bob"
  ∧ fst (call (startGame dave) rejoined) = Normal tt
  ∧ status (state (after (startGame dave) rejoined)) = IN_PROGRESS
  ∧ firstPlayer (state (after (startGame dave) rejoined)) = Yellow.
Proof.
  split.
  - apply reachable_performAll.
    + apply reach_next. apply reachable_performAll; [apply reach_new|].
      repeat constructor; done.
    + repeat constructor; done.
  - vm_compute. repeat split.
Qed.

(** ** The board and the move log (C7, C8, C10) *)

(** C7. For every reachable game and every sequence of moves submitted to
    it, accepted or not, the board the game then holds is the replay of its
    move log in order against the empty board. *)
Theorem board_is_replay_of_log (g : ConnectFourGame) (mvs : list GameMove) :
  reachable g →
  let g' := performAll (ApplyMove <$> mvs) g in
  _board g' = replay (moves (state g')).
Proof.
  intros Hg g'.
  assert (reachable g') as [[] _]%reachable_Inv; [|done].
  apply reachable_performAll; [done|apply admissible_moves].
Qed.

Lemma board_is_replay_of_log_witness :
  reachable started ∧ _board sixMoves = replay (moves (state sixMoves)).
Proof.
  split; [apply reachable_started|].
  apply (board_is_replay_of_log started sixLog). apply reachable_started.
Defined.

(** C8. [applyMove] returns only if the column is in 0..6, the row is in
    0..5, the target cell is empty, and the row is 5 or the cell directly
    below is not empty; and the board of every reachable game satisfies the
    gravity invariant. *)
Theorem accepted_moves_obey_gravity :
  (∀ g mv,
     returns (applyMove mv) g = true →
     (0 ≤ col (move mv) < 7)%Z
     ∧ (0 ≤ row (move mv) < 6)%Z
     ∧ cellAt (_board g) (row (move mv)) (col (move mv)) = Some CellEmpty
     ∧ (row (move mv) = 5%Z
        ∨ cellAt (_board g) (row (move mv) + 1) (col (move mv)) ≠ Some CellEmpty))
  ∧ (∀ g, reachable g → gravity (_board g)).
Proof.
  split.
  - intros g mv Hret%applyMove_returns.
    destruct (accepts_inv g mv Hret) as (_ & _ & [Hc Hr] & Hcell & Hbelow). done.
  - intros g [[] _]%reachable_Inv. done.
Qed.

Lemma accepted_moves_obey_gravity_witness :
  returns (applyMove winningMove) sixMoves = true
  ∧ (0 ≤ col (move winningMove) < 7)%Z
  ∧ (0 ≤ row (move winningMove) < 6)%Z
  ∧ reachable sixMoves
  ∧ gravity (_board sixMoves).
Proof.
  assert (returns (applyMove winningMove) sixMoves = true) as Hret
    by (vm_compute; reflexivity).
  destruct accepted_moves_obey_gravity as [Hpos Hgrav].
  destruct (Hpos sixMoves winningMove Hret) as (Hc & Hr & _).
  split; [exact Hret|]. split; [exact Hc|]. split; [exact Hr|].
  split; [exact reachable_sixMoves|].
  exact (Hgrav sixMoves reachable_sixMoves).
Defined.

(** C10. At a well-typed game in progress, a move by the occupant of the
    active color's seat at a placeable position is accepted whatever its
    [gamePiece]: the piece as submitted ends the log, is the disc written on
    the board, and decides the winner when the board then shows a win.  At
    the game [started], alice holds Red, submits a Yellow piece, and the move
    is accepted and recorded as a Yellow disc; at [yellowRow] her Yellow
    piece completes a Yellow row of four and bob, on Yellow, is the winner. *)
Theorem gamePiece_is_not_validated :
  (∀ g mv piece,
     well_typed g →
     status (state g) = IN_PROGRESS →
     seat (activeColor (firstPlayer (state g)) (length (moves (state g)))) (state g)
     = Some (playerID mv) →
     _checkValidBoardPosition g mv = true →
     let mv' := withPiece mv piece in
     let g' := after (applyMove mv') g in
     returns (applyMove mv') g = true
     ∧ last (moves (state g')) = Some (move mv')
     ∧ cellAt (_board g') (row (move mv)) (col (move mv)) = Some (pieceCell piece)
     ∧ (anyWin (_board g') = true →
        status (state g') = OVER ∧ winner (state g') = seat piece (state g)))
  ∧ (let mv := mkGameMove "alice" "game" (mkMove Yellow 3 5) in
     well_typed started
     ∧ seat Red (state started) = Some (playerID mv)
     ∧ returns (applyMove mv) started = true
     ∧ cellAt (_board (after (applyMove mv) started)) 5 3 = Some CellY
     ∧ seat Red (state yellowRow) = Some (playerID mv)
     ∧ returns (applyMove mv) yellowRow = true
     ∧ status (state (after (applyMove mv) yellowRow)) = OVER
     ∧ winner (state (after (applyMove mv) yellowRow)) = Some "bob").
Proof.
  split.
  - intros g mv piece Hg Hst Hseat Hpos mv' g'.
    assert (accepts g mv' = true) as Hacc.
    { unfold mv'. rewrite accepts_withPiece. unfold accepts.
      rewrite isTurn_eq, Hpos. by rewrite !bool_decide_eq_true_2. }
    split; [by apply accepts_returns|].
    subst g'. rewrite applyMove_after, Hacc by done.
    pose proof (accepts_typed g mv' Hacc) as [Hc Hr].
    destruct Hg as [Hb Hlog].
    unfold moved. cbn [state _board].
    destruct (outcome_frame (move mv')
                (replayOnto (_board g) (moves (state g) ++ [move mv']))
                (set_moves (moves (state g) ++ [move mv']) (state g)))
      as (Hmoves & _ & _ & _ & _ & _).
    split; [|split].
    + rewrite Hmoves. cbn. apply last_snoc.
    + rewrite replayOnto_app. cbn [replayOnto fold_left].
      rewrite cellAt_setCell by (done || by apply replayOnto_ok).
      by rewrite bool_decide_eq_true_2.
    + unfold outcome. intros ->. cbn. by destruct piece.
  - cbn zeta. split.
    + split; [apply board_ok_emptyBoard|constructor].
    + by vm_compute.
Qed.

Lemma gamePiece_is_not_validated_witness :
  well_typed started
  ∧ status (state started) = IN_PROGRESS
  ∧ returns (applyMove (withPiece winningMove Yellow)) started = true
  ∧ cellAt (_board (after (applyMove (withPiece winningMove Yellow)) started)) 5 3
    = Some CellY.
Proof.
  destruct gamePiece_is_not_validated as [Hany _].
  assert (status (state started) = IN_PROGRESS) as Hst
    by (vm_compute; reflexivity).
  destruct (Hany started winningMove Yellow well_typed_started Hst)
    as (Hret & _ & Hcell & _).
  - vm_compute. reflexivity.
  - vm_compute. reflexivity.
  - split; [exact well_typed_started|]. split; [exact Hst|].
    split; [exact Hret|exact Hcell].
Defined.

(** ** Further invariants of reachable games *)

Lemma joinState_frame (g : ConnectFourGame) (i : PlayerID) :
  moves (joinState g i) = moves (state g)
  ∧ firstPlayer (joinState g i) = firstPlayer (state g)
  ∧ winner (joinState g i) = winner (state g)
  ∧ redReady (joinState g i) = redReady (state g)
  ∧ yellowReady (joinState g i) = yellowReady (state g)
  ∧ status (joinState g i) =
    (if bool_decide (red (joinState g i) ≠ None ∧ yellow (joinState g i) ≠ None)
     then WAITING_TO_START else status (state g)).
Proof.
  unfold joinState. destruct (joinSeat g i); cbn [takeSeat];
    destruct (state g) as [ms st fp r y rr yr w]; cbn;
    repeat case_bool_decide; cbn in *; repeat split; try done; try tauto.
  all: exfalso;
    match goal with H : ¬ (_ ∧ _) |- _ => apply H; split; (done || tauto) end.
Qed.

Lemma startState_frame (g : ConnectFourGame) (i : PlayerID) :
  moves (startState g i) = moves (state g)
  ∧ red (startState g i) = red (state g)
  ∧ yellow (startState g i) = yellow (state g)
  ∧ winner (startState g i) = winner (state g)
  ∧ (status (startState g i) = status (state g)
     ∨ status (startState g i) = IN_PROGRESS).
Proof.
  unfold startState. generalize (startFirstPlayer g). intros c.
  destruct (state g) as [ms st fp r y rr yr w]. cbn.
  case_bool_decide; cbn; repeat js_if; cbn; auto 10.
Qed.

Lemma leaveState_winner (i : PlayerID) (s : ConnectFourGameState) :
  (status s ≠ OVER → winner s = None) →
  (winner s = None ∨ winner s = red s ∨ winner s = yellow s) →
  seated i s = true →
  (status (leaveState i s) ≠ OVER → winner (leaveState i s) = None)
  ∧ (winner (leaveState i s) = None
     ∨ winner (leaveState i s) = red (leaveState i s)
     ∨ winner (leaveState i s) = yellow (leaveState i s))
  ∧ (status (leaveState i s) = WAITING_FOR_PLAYERS
     ∨ status (leaveState i s) = WAITING_TO_START →
     status s = WAITING_FOR_PLAYERS ∨ status s = WAITING_TO_START).
Proof.
  destruct s as [ms st fp r y rr yr w]. unfold leaveState, clearRed, clearYellow, seated.
  cbn. intros Hw Hws Hseated.
  destruct st; repeat case_bool_decide; cbn in *; try discriminate.
  all: repeat split; try tauto; try (intros; by auto).
  all: try (rewrite Hw by done; auto).
  all: intros [|]; discriminate.
Qed.

Lemma new_Inv1 (priorGame : option ConnectFourGame) :
  Inv1 (ConnectFourGame_new priorGame).
Proof. split; cbn; auto; try done. lia. Qed.

Lemma moved_Inv1 (g : ConnectFourGame) (mv : GameMove) :
  Inv0 g → Inv1 g → accepts g mv = true → Inv1 (moved g (move mv)).
Proof.
  intros Hg [Hw Hws Hnm Hbound Hfull] Hacc.
  destruct (accepts_inv g mv Hacc) as (Hst & _ & Htyped & _ & _).
  pose proof (moved_board g (move mv) Hg Htyped) as Hboard.
  pose proof (moved_Inv0 g mv Hg Hacc) as [_ Hb' _ _ _ _].
  assert (Hnew : cellAt (_board (moved g (move mv))) (row (move mv)) (col (move mv))
                 = Some (pieceCell (gamePiece (move mv)))).
  { rewrite Hboard, cellAt_setCell by (apply Hg || apply Htyped).
    by rewrite bool_decide_eq_true_2. }
  assert (length (moves (state g)) < 42)%nat as Hlt.
  { destruct (decide (length (moves (state g)) = 42%nat)) as [H42|]; [|lia].
    apply Hfull in H42. congruence. }
  unfold moved in *. cbn [_board state] in *.
  set (log := moves (state g) ++ [move mv]) in *.
  set (b := replayOnto (_board g) log) in *.
  assert (length log = S (length (moves (state g)))) as Hlen
    by (subst log; rewrite length_app; cbn; lia).
  unfold outcome. cbn [moves set_moves].
  destruct (anyWin b) eqn:Hwin; [|destruct (tieScan b (length log)) eqn:Htie]; cbn.
  - split; cbn; try done; try lia; try (intros [|]; discriminate).
    destruct (gamePiece (move mv)); cbn; auto.
  - split; cbn; try done; try lia; try (intros [|]; discriminate). auto.
  - split; cbn; try lia.
    + intros _. apply Hw. congruence.
    + left. apply Hw. congruence.
    + rewrite Hst. intros [|]; discriminate.
    + intros H42.
      rewrite (tieScan_true b _ _ _ _ Hb' Hnew) in Htie;
        [done|apply pieceCell_nonempty|done].
Qed.

Lemma perform_Inv1 (c : Command) (g : ConnectFourGame) :
  Inv0 g → Inv1 g → Inv1 (after (perform c) g).
Proof.
  intros Hg Hg1. destruct c as [p|p|p|mv]; cbn [perform].
  - rewrite join_after.
    destruct (seated _ _) eqn:Hseated; [done|].
    destruct (full _) eqn:Hfull; [done|]. cbn [orb].
    destruct (not_full_free _ (inv_seats g Hg) Hfull) as [Hwait _].
    destruct (joinState_frame g (Player.id p)) as (Hm & _ & Hw & _ & _ & Hst).
    destruct Hg1 as [Hwin Hws Hnm Hbound Hfl].
    assert (winner (state g) = None) as Hnone by (apply Hwin; congruence).
    split; cbn; rewrite ?Hm, ?Hw; auto.
    rewrite Hnm by auto. discriminate.
  - rewrite leave_after.
    destruct (seated _ _) eqn:Hseated; [|done].
    destruct Hg1 as [Hwin Hws Hnm Hbound Hfl].
    destruct (leaveState_winner _ _ Hwin Hws Hseated) as (Hw' & Hws' & Hst').
    destruct (leaveState_ok (Player.id p) (state g) (inv_seats g Hg) Hseated)
      as (_ & Hm & Hover).
    split; cbn; rewrite ?Hm; auto.
    intros H42. pose proof (Hfl H42) as Ho.
    unfold leaveState. by rewrite Ho.
  - rewrite startGame_after.
    case_bool_decide as Hwait; [|done]. cbn [andb].
    destruct (seated _ _) eqn:Hseated; [|done].
    destruct Hg1 as [Hwin Hws Hnm Hbound Hfl].
    destruct (startState_frame g (Player.id p)) as (Hm & Hr & Hy & Hw & Hst).
    assert (winner (state g) = None) as Hnone by (apply Hwin; congruence).
    split; cbn; rewrite ?Hm, ?Hw, ?Hr, ?Hy; auto.
    rewrite Hnm by auto. discriminate.
  - rewrite applyMove_after by by apply Inv0_well_typed.
    destruct (accepts g mv) eqn:Hacc; [|done]. by apply moved_Inv1.
Qed.

Lemma reachable_Inv1 (g : ConnectFourGame) : reachable g → Inv1 g.
Proof.
  induction 1 as [|l _ _|g c Hg IH Hc|g l c Hg IH Hl Hc].
  - apply new_Inv1.
  - apply new_Inv1.
  - apply perform_Inv1; [|done]. by apply reachable_Inv.
  - destruct IH. by split.
Qed.

(** What reachable games keep true of the first mover and the ready
    flags. *)
Lemma perform_started (c : Command) (g : ConnectFourGame) :
  Inv0 g →
  (_lastGame g = None → firstPlayer (state g) = Red) →
  (status (state g) = IN_PROGRESS ∨ status (state g) = OVER →
   redReady (state g) = Some true ∧ yellowReady (state g) = Some true) →
  let g' := after (perform c) g in
  (_lastGame g' = None → firstPlayer (state g') = Red)
  ∧ (status (state g') = IN_PROGRESS ∨ status (state g') = OVER →
     redReady (state g') = Some true ∧ yellowReady (state g') = Some true).
Proof.
  intros Hg Hfirst Hready g'. subst g'.
  rewrite (perform_lastGame c g Hg).
  destruct c as [p|p|p|mv]; cbn [perform].
  - rewrite join_after.
    destruct (seated _ _) eqn:Hseated; [done|].
    destruct (full _) eqn:Hfull; [done|]. cbn [orb state with_state with_players].
    destruct (joinState_frame g (Player.id p)) as (_ & Hfp & _ & Hrr & Hyr & Hst).
    destruct (not_full_free _ (inv_seats g Hg) Hfull) as [Hwait _].
    rewrite Hfp, Hrr, Hyr, Hst, Hwait. split; [done|].
    case_bool_decide; intros [|]; discriminate.
  - rewrite leave_after.
    destruct (seated _ _) eqn:Hseated; [|done]. cbn [state with_state with_players].
    rewrite leaveState_firstPlayer. split; [done|].
    revert Hready. unfold leaveState, clearRed, clearYellow.
    destruct (state g) as [ms [] fp r y rr yr w]; cbn;
      repeat (case_bool_decide; cbn); auto; intros _ [|]; discriminate.
  - rewrite startGame_after.
    case_bool_decide as Hwait; [|done]. cbn [andb].
    destruct (seated _ _) eqn:Hseated; [|done]. cbn [state with_state].
    rewrite startState_firstPlayer. split.
    + intros Hnone. unfold startFirstPlayer, carriedOver. by rewrite Hnone.
    + clear Hready. unfold startState. generalize (startFirstPlayer g). intros fp'.
      destruct (state g) as [ms st fp r y [[]|] [[]|] w]; cbn in *; subst st;
        case_bool_decide; cbn; auto; intros [|]; discriminate.
  - rewrite applyMove_after by by apply Inv0_well_typed.
    destruct (accepts g mv) eqn:Hacc; [|done].
    destruct (accepts_inv g mv Hacc) as (Hst & _).
    unfold moved. cbn [state].
    destruct (outcome_frame (move mv)
                (replayOnto (_board g) (moves (state g) ++ [move mv]))
                (set_moves (moves (state g) ++ [move mv]) (state g)))
      as (_ & _ & _ & Hfp & _ & _).
    rewrite Hfp. split; [done|]. intros _.
    destruct Hready as [Hrr Hyr]; [by left|].
    unfold outcome. destruct (anyWin _); [|destruct (tieScan _ _)]; done.
Qed.

Lemma reachable_started_flags (g : ConnectFourGame) :
  reachable g →
  (_lastGame g = None → firstPlayer (state g) = Red)
  ∧ (status (state g) = IN_PROGRESS ∨ status (state g) = OVER →
     redReady (state g) = Some true ∧ yellowReady (state g) = Some true).
Proof.
  induction 1 as [|l _ _|g c Hg [IH1 IH2] Hc|g l c Hg [IH1 IH2] Hl Hc].
  - split; [done|]. intros [|]; discriminate.
  - split; [done|]. intros [|]; discriminate.
  - apply perform_started; [by apply reachable_Inv|done..].
  - split; [done|]. by destruct g.
Qed.

Lemma reachable_priorGame : reachable priorGame.
Proof.
  apply reachable_performAll; [apply reach_new|].
  repeat constructor; discriminate.
Defined.

Lemma reachable_wonGame : reachable wonGame.
Proof.
  apply reachable_performAll; [apply reachable_sixMoves|].
  repeat constructor.
Defined.

(** ** Join *)

Lemma thrown_join (player : Player.t) (g : ConnectFourGame) :
  thrown (_join player) g =
  if seated (Player.id player) (state g)
  then Some (InvalidParametersError PLAYER_ALREADY_IN_GAME_MESSAGE)
  else if full (state g) then Some (InvalidParametersError GAME_FULL_MESSAGE)
  else None.
Proof.
  unfold thrown, call. rewrite join_run. cbn [this].
  destruct (seated _ _); [done|]. by destruct (full _).
Qed.

Lemma seated_decide (i : PlayerID) (s : ConnectFourGameState) :
  seated i s = bool_decide (red s = Some i ∨ yellow s = Some i).
Proof.
  unfold seated. repeat case_bool_decide; cbn; try done; tauto.
Qed.

Lemma full_decide (s : ConnectFourGameState) :
  seats_ok s → full s = bool_decide (red s ≠ None ∧ yellow s ≠ None).
Proof.
  intros (Hr & Hy & Hd & _). unfold full. rewrite !truthy_Some by done.
  repeat case_bool_decide; cbn; try done; tauto.
Qed.

(** X1. At a reachable game [_join] throws PLAYER_ALREADY_IN_GAME when the
    player holds a seat, otherwise GAME_FULL when both seats are taken, and
    otherwise returns: being seated is checked first, and nothing else is
    ever thrown. *)
Theorem join_error_cases (g : ConnectFourGame) (player : Player.t) :
  reachable g →
  thrown (_join player) g =
  if bool_decide (red (state g) = Some (Player.id player)
                  ∨ yellow (state g) = Some (Player.id player))
  then Some (InvalidParametersError PLAYER_ALREADY_IN_GAME_MESSAGE)
  else if bool_decide (red (state g) ≠ None ∧ yellow (state g) ≠ None)
  then Some (InvalidParametersError GAME_FULL_MESSAGE)
  else None.
Proof.
  intros [[Hseats _ _ _ _ _] _]%reachable_Inv.
  by rewrite thrown_join, seated_decide, full_decide.
Qed.

Lemma join_error_cases_witness :
  reachable priorGame
  ∧ thrown (_join carol) priorGame = Some (InvalidParametersError GAME_FULL_MESSAGE).
Proof.
  split; [exact reachable_priorGame|].
  etrans; [exact (join_error_cases priorGame carol reachable_priorGame)|].
  vm_compute. reflexivity.
Defined.

(** X2. At a reachable game without a prior game, an accepted Join seats
    the player on Red when Red is free and otherwise on Yellow, which is
    then free; the other seat is left as it was. *)
Theorem join_without_prior (g : ConnectFourGame) (player : Player.t) :
  reachable g → _lastGame g = None → returns (_join player) g = true →
  let s := state g in
  let s' := state (after (_join player) g) in
  (red s = None → red s' = Some (Player.id player) ∧ yellow s' = yellow s)
  ∧ (red s ≠ None →
     yellow s = None ∧ yellow s' = Some (Player.id player) ∧ red s' = red s).
Proof.
  intros [[Hseats _ _ _ _ _] _]%reachable_Inv Hl Hret s s'.
  destruct (join_returns player g Hret) as (Hseated & Hfull & Hafter).
  destruct (not_full_free _ Hseats Hfull) as [_ Hfree].
  subst s'. rewrite Hafter. cbn [state with_state].
  unfold joinState, joinSeat. rewrite Hl.
  rewrite (bool_decide_eq_false_2 (is_Some None)) by (by intros []).
  subst s. destruct (state g) as [ms st fp r y rr yr w]. cbn [red yellow] in *.
  split; intros Hred.
  - rewrite (bool_decide_eq_true_2 _ Hred). cbn.
    by repeat (case_bool_decide; cbn).
  - rewrite (bool_decide_eq_false_2 (r = None)) by done. cbn.
    destruct Hfree as [|Hy]; [done|].
    by repeat (case_bool_decide; cbn).
Qed.

Lemma join_without_prior_witness :
  reachable (ConnectFourGame_new None)
  ∧ _lastGame (ConnectFourGame_new None) = None
  ∧ returns (_join alice) (ConnectFourGame_new None) = true
  ∧ red (state (after (_join alice) (ConnectFourGame_new None))) = Some "alice".
Proof.
  assert (returns (_join alice) (ConnectFourGame_new None) = true) as Hret
    by (vm_compute; reflexivity).
  destruct (join_without_prior (ConnectFourGame_new None) alice reach_new eq_refl Hret)
    as [Hred _].
  destruct (Hred eq_refl) as [Hr _].
  split; [exact reach_new|]. split; [reflexivity|]. split; [exact Hret|exact Hr].
Defined.

(** X3. At a reachable game an accepted Join happens while waiting for
    players; it puts the player on a seat that was free and leaves the
    other seat, the move log, the first mover, the winner, both ready flags
    and the board as they were; the status becomes WAITING_TO_START exactly
    when both seats are then taken, and stays WAITING_FOR_PLAYERS
    otherwise. *)
Theorem join_effect (g : ConnectFourGame) (player : Player.t) :
  reachable g → returns (_join player) g = true →
  let s := state g in
  let g' := after (_join player) g in
  let s' := state g' in
  status s = WAITING_FOR_PLAYERS
  ∧ (∃ c, seat c s = None ∧ seat c s' = Some (Player.id player)
          ∧ seat (opposite c) s' = seat (opposite c) s)
  ∧ status s' = (if bool_decide (red s' ≠ None ∧ yellow s' ≠ None)
                 then WAITING_TO_START else WAITING_FOR_PLAYERS)
  ∧ moves s' = moves s ∧ firstPlayer s' = firstPlayer s ∧ winner s' = winner s
  ∧ redReady s' = redReady s ∧ yellowReady s' = yellowReady s
  ∧ _board g' = _board g.
Proof.
  intros [[Hseats _ _ _ _ _] _]%reachable_Inv Hret s g' s'.
  destruct (join_returns player g Hret) as (Hseated & Hfull & Hafter).
  destruct (not_full_free _ Hseats Hfull) as [Hwait Hfree].
  pose proof (joinSeat_free g (Player.id player) Hfree) as Hseat.
  destruct (joinState_frame g (Player.id player)) as (Hm & Hf & Hw & Hrr & Hyr & Hst).
  subst s' g'. rewrite Hafter. cbn [state with_state _board].
  rewrite Hwait in Hst. repeat split; try done.
  exists (joinSeat g (Player.id player)). split; [done|].
  unfold joinState. destruct (joinSeat g (Player.id player));
    destruct (state g) as [ms st fp r y rr yr w]; cbn;
    by repeat (case_bool_decide; cbn).
Qed.

Lemma join_effect_witness :
  reachable carolSeated
  ∧ returns (_join alice) carolSeated = true
  ∧ status (state carolSeated) = WAITING_FOR_PLAYERS
  ∧ _board (after (_join alice) carolSeated) = _board carolSeated.
Proof.
  assert (returns (_join alice) carolSeated = true) as Hret
    by (vm_compute; reflexivity).
  destruct (join_effect carolSeated alice reachable_carolSeated Hret)
    as (Hst & _ & _ & _ & _ & _ & _ & _ & Hb).
  split; [exact reachable_carolSeated|]. split; [exact Hret|].
  split; [exact Hst|exact Hb].
Defined.

(** ** StartGame *)

(** X4. At every game [startGame] throws GAME_NOT_STARTABLE when the status
    is not WAITING_TO_START, otherwise PLAYER_NOT_IN_GAME when the player
    holds no seat, and otherwise returns: the status is checked first. *)
Theorem startGame_error_cases (g : ConnectFourGame) (player : Player.t) :
  thrown (startGame player) g =
  if bool_decide (status (state g) ≠ WAITING_TO_START)
  then Some (InvalidParametersError GAME_NOT_STARTABLE_MESSAGE)
  else if bool_decide (red (state g) = Some (Player.id player)
                       ∨ yellow (state g) = Some (Player.id player))
  then None
  else Some (InvalidParametersError PLAYER_NOT_IN_GAME_MESSAGE).
Proof.
  unfold thrown, call. rewrite startGame_run. cbn [this].
  rewrite seated_decide.
  case_bool_decide; [done|]. by case_bool_decide.
Qed.

(** X5. When [startGame] returns, it has set the ready flag of the caller's
    seat (Red's when the caller holds Red, Yellow's otherwise) and left the
    other flag, both seats, the move log, the winner and the board as they
    were; the status is IN_PROGRESS exactly when both flags are then set,
    and WAITING_TO_START otherwise. *)
Theorem startGame_effect (g : ConnectFourGame) (player : Player.t) :
  returns (startGame player) g = true →
  let s := state g in
  let g' := after (startGame player) g in
  let s' := state g' in
  let c := if bool_decide (red s = Some (Player.id player)) then Red else Yellow in
  seat c s = Some (Player.id player)
  ∧ ready c s' = Some true
  ∧ ready (opposite c) s' = ready (opposite c) s
  ∧ status s' = (if truthyb (redReady s') && truthyb (yellowReady s')
                 then IN_PROGRESS else WAITING_TO_START)
  ∧ red s' = red s ∧ yellow s' = yellow s
  ∧ moves s' = moves s ∧ winner s' = winner s
  ∧ _board g' = _board g.
Proof.
  intros Hret s g' s' c. subst s' g'.
  rewrite (startGame_returns _ _ Hret). cbn [state with_state _board].
  unfold returns, call in Hret. rewrite startGame_run in Hret. cbn [this] in Hret.
  case_bool_decide as Hst; [done|].
  destruct (seated _ _) eqn:Hseated; [|done].
  unfold seated in Hseated.
  subst c s. unfold startState. generalize (startFirstPlayer g). intros fp'.
  destruct (state g) as [ms st fp r y rr yr w]. cbn in *. subst st.
  case_bool_decide as Hred; cbn in *.
  - destruct yr as [[]|]; cbn; repeat split; done.
  - case_bool_decide; [|done].
    destruct rr as [[]|]; cbn; repeat split; done.
Qed.

Lemma startGame_effect_witness :
  returns (startGame alice) priorGame = true
  ∧ redReady (state (after (startGame alice) priorGame)) = Some true
  ∧ yellow (state (after (startGame alice) priorGame)) = yellow (state priorGame).
Proof.
  assert (returns (startGame alice) priorGame = true) as Hret
    by (vm_compute; reflexivity).
  destruct (startGame_effect priorGame alice Hret)
    as (_ & Hready & _ & _ & _ & Hy & _).
  split; [exact Hret|]. split; [exact Hready|exact Hy].
Defined.

(** X6. [startGame] is idempotent: a second call by the same player right
    after the first leaves the game exactly as the first call left it,
    whether the calls return or throw. *)
Theorem startGame_idempotent (g : ConnectFourGame) (player : Player.t) :
  after (startGame player) (after (startGame player) g)
  = after (startGame player) g.
Proof.
  rewrite !startGame_after.
  destruct (bool_decide (status (state g) = WAITING_TO_START)
            && seated (Player.id player) (state g)) eqn:Hgo.
  2: { by rewrite Hgo. }
  apply andb_prop in Hgo as [Hst%bool_decide_eq_true Hseated].
  unfold seated in *.
  unfold startState, startFirstPlayer, carriedOver, lastRed, lastYellow,
    lastFirstPlayer.
  destruct g as [[ms st fp r y rr yr w] l b ps]. cbn in *. subst st.
  destruct (existsb _ ps), l as [l|], rr as [[]|], yr as [[]|]; cbn;
    repeat (case_bool_decide; cbn; try congruence); try reflexivity.
Qed.

Lemma startState_fields (g : ConnectFourGame) (i : PlayerID) :
  let s := state g in
  let rr := if bool_decide (red s = Some i) then Some true else redReady s in
  let yr := if bool_decide (red s = Some i) then yellowReady s else Some true in
  red (startState g i) = red s
  ∧ yellow (startState g i) = yellow s
  ∧ redReady (startState g i) = rr
  ∧ yellowReady (startState g i) = yr
  ∧ status (startState g i) =
    (if truthyb yr && truthyb rr then IN_PROGRESS else status s).
Proof.
  unfold startState. generalize (startFirstPlayer g). intros c.
  destruct (state g) as [ms st fp r y rr yr w]. cbn.
  case_bool_decide; cbn; repeat js_if; cbn; done.
Qed.

(** X7. At a game waiting to start with two different players seated, once
    both have called [startGame], in either order, the game is in
    progress. *)
Theorem both_ready_starts_game (g : ConnectFourGame) (p q : Player.t) :
  status (state g) = WAITING_TO_START →
  red (state g) = Some (Player.id p) →
  yellow (state g) = Some (Player.id q) →
  Player.id p ≠ Player.id q →
  status (state (after (startGame q) (after (startGame p) g))) = IN_PROGRESS
  ∧ status (state (after (startGame p) (after (startGame q) g))) = IN_PROGRESS.
Proof.
  intros Hst Hr Hy Hpq.
  assert (∀ a b : Player.t,
            seated (Player.id a) (state g) = true →
            seated (Player.id b) (state g) = true →
            (red (state g) = Some (Player.id a) ↔ red (state g) ≠ Some (Player.id b)) →
            status (state (after (startGame b) (after (startGame a) g))) = IN_PROGRESS)
    as Hboth.
  { intros a b Ha Hb Hab.
    rewrite (startGame_after a g), Hst, Ha, bool_decide_eq_true_2 by done.
    cbn [andb].
    destruct (startState_fields g (Player.id a)) as (Hr1 & Hy1 & Hrr1 & Hyr1 & Hst1).
    rewrite startGame_after. cbn [state with_state].
    unfold seated in *. rewrite Hr1, Hy1, Hb, Hst1, Hst.
    destruct (truthyb _ && truthyb _) eqn:Hready; [done|].
    rewrite bool_decide_eq_true_2 by done. cbn [andb state with_state].
    destruct (startState_fields (with_state (startState g (Player.id a)) g)
                (Player.id b)) as (_ & _ & Hrr2 & Hyr2 & Hst2).
    cbn [state with_state] in *. rewrite Hst2, Hr1, Hrr1, Hyr1.
    destruct (decide (red (state g) = Some (Player.id a))) as [Hra|Hra].
    - rewrite (bool_decide_eq_true_2 _ Hra).
      rewrite (bool_decide_eq_false_2 (red (state g) = Some (Player.id b)))
        by by apply Hab.
      done.
    - rewrite (bool_decide_eq_false_2 _ Hra).
      rewrite (bool_decide_eq_true_2 (red (state g) = Some (Player.id b))).
      + done.
      + destruct (decide (red (state g) = Some (Player.id b))); [done|].
        exfalso. apply Hra. by apply Hab. }
  assert (seated (Player.id p) (state g) = true) as Hp.
  { unfold seated. rewrite Hr. by rewrite bool_decide_eq_true_2. }
  assert (seated (Player.id q) (state g) = true) as Hq.
  { unfold seated. rewrite Hy.
    rewrite (bool_decide_eq_true_2 (Some (Player.id q) = Some (Player.id q))) by done.
    apply orb_true_r. }
  split; apply Hboth; try done; rewrite Hr.
  - split; [|done]. intros _ [= ?]. done.
  - split; [intros [= ?]; done|]. intros Hne. by destruct Hne.
Qed.

Lemma both_ready_starts_game_witness :
  status (state priorGame) = WAITING_TO_START
  ∧ red (state priorGame) = Some "alice"
  ∧ yellow (state priorGame) = Some "bob"
  ∧ status (state (after (startGame bob) (after (startGame alice) priorGame)))
    = IN_PROGRESS
  ∧ status (state (after (startGame alice) (after (startGame bob) priorGame)))
    = IN_PROGRESS.
Proof.
  assert (status (state priorGame) = WAITING_TO_START) as Hst
    by (vm_compute; reflexivity).
  assert (red (state priorGame) = Some "alice") as Hr by (vm_compute; reflexivity).
  assert (yellow (state priorGame) = Some "bob") as Hy by (vm_compute; reflexivity).
  assert (Player.id alice ≠ Player.id bob) as Hne by discriminate.
  destruct (both_ready_starts_game priorGame alice bob Hst Hr Hy Hne) as [H1 H2].
  split; [exact Hst|]. split; [exact Hr|]. split; [exact Hy|].
  split; [exact H1|exact H2].
Defined.

(** X22. In a reachable game that has no prior game Red is the first
    mover, whatever calls were made on it. *)
Theorem red_first_without_prior (g : ConnectFourGame) :
  reachable g → _lastGame g = None → firstPlayer (state g) = Red.
Proof. intros Hg. by apply reachable_started_flags. Qed.

Lemma red_first_without_prior_witness :
  reachable sixMoves
  ∧ _lastGame sixMoves = None
  ∧ firstPlayer (state sixMoves) = Red.
Proof.
  assert (_lastGame sixMoves = None) as Hl by (vm_compute; reflexivity).
  split; [exact reachable_sixMoves|]. split; [exact Hl|].
  exact (red_first_without_prior sixMoves reachable_sixMoves Hl).
Defined.

(** X23. A reachable game is only ever IN_PROGRESS or OVER with both ready
    flags set: no sequence of calls starts a game for which one of the
    players has not called [startGame]. *)
Theorem started_means_both_ready (g : ConnectFourGame) :
  reachable g →
  status (state g) = IN_PROGRESS ∨ status (state g) = OVER →
  redReady (state g) = Some true ∧ yellowReady (state g) = Some true.
Proof. intros Hg. by apply reachable_started_flags. Qed.

Lemma started_means_both_ready_witness :
  reachable sixMoves
  ∧ status (state sixMoves) = IN_PROGRESS
  ∧ redReady (state sixMoves) = Some true
  ∧ yellowReady (state sixMoves) = Some true.
Proof.
  assert (status (state sixMoves) = IN_PROGRESS) as Hst by (vm_compute; reflexivity).
  destruct (started_means_both_ready sixMoves reachable_sixMoves (or_introl Hst))
    as [Hr Hy].
  split; [exact reachable_sixMoves|]. split; [exact Hst|].
  split; [exact Hr|exact Hy].
Defined.

(** ** Leave *)

Lemma thrown_leave (player : Player.t) (g : ConnectFourGame) :
  thrown (_leave player) g =
  if seated (Player.id player) (state g) then None
  else Some (InvalidParametersError PLAYER_NOT_IN_GAME_MESSAGE).
Proof.
  unfold thrown, call. rewrite leave_run. cbn [this]. by destruct (seated _ _).
Qed.

Lemma leave_state (player : Player.t) (g : ConnectFourGame) :
  after (_leave player) g =
  if seated (Player.id player) (state g)
  then with_state (leaveState (Player.id player) (state g)) g
  else g.
Proof.
  unfold after, call. rewrite leave_run. cbn [this]. by destruct (seated _ _).
Qed.

(** X8. At a reachable game [_leave] throws PLAYER_NOT_IN_GAME for a player
    who holds no seat and returns for one who holds the seat of color [c].
    In progress the status becomes OVER and the winner the occupant of the
    other seat, all else unchanged; at a game that is OVER nothing changes;
    while waiting the leaver's seat is vacated, its ready flag is [false],
    the status is WAITING_FOR_PLAYERS, and the other seat, the other flag,
    the move log, the first mover and the winner are as before.  The board
    is never touched. *)
Theorem leave_effect (g : ConnectFourGame) (player : Player.t) :
  reachable g →
  let i := Player.id player in
  let s := state g in
  let g' := after (_leave player) g in
  let s' := state g' in
  _board g' = _board g
  ∧ (red s ≠ Some i → yellow s ≠ Some i →
     thrown (_leave player) g
     = Some (InvalidParametersError PLAYER_NOT_IN_GAME_MESSAGE))
  ∧ (∀ c, seat c s = Some i →
       thrown (_leave player) g = None
       ∧ match status s with
         | IN_PROGRESS => s' = set_status OVER (set_winner (seat (opposite c) s) s)
         | OVER => s' = s
         | _ =>
             seat c s' = None ∧ ready c s' = Some false
             ∧ status s' = WAITING_FOR_PLAYERS
             ∧ seat (opposite c) s' = seat (opposite c) s
             ∧ ready (opposite c) s' = ready (opposite c) s
             ∧ moves s' = moves s ∧ firstPlayer s' = firstPlayer s
             ∧ winner s' = winner s
         end).
Proof.
  intros [[(_ & _ & Hd & _) _ _ _ _ _] _]%reachable_Inv i s g' s'.
  subst s' g'. rewrite leave_state, thrown_leave, seated_decide. fold i s.
  split; [by case_bool_decide|]. split.
  - intros Hr Hy. rewrite bool_decide_eq_false_2; [done|tauto].
  - intros c Hc.
    assert (red s = Some i ∨ yellow s = Some i) as Hseated
      by (destruct c; cbn in Hc; auto).
    rewrite (bool_decide_eq_true_2 _ Hseated). split; [done|].
    cbn [state with_state]. unfold leaveState, clearRed, clearYellow.
    subst s. destruct (state g) as [ms st fp r y rr yr w]. cbn in *.
    destruct c, st; cbn in *; subst;
      repeat (case_bool_decide; cbn); try done; try congruence.
    all: destruct Hd; congruence.
Qed.

Lemma leave_effect_witness :
  reachable started
  ∧ seat Red (state started) = Some "alice"
  ∧ thrown (_leave alice) started = None
  ∧ _board (after (_leave alice) started) = _board started.
Proof.
  assert (seat Red (state started) = Some "alice") as Hseat
    by (vm_compute; reflexivity).
  destruct (leave_effect started alice reachable_started) as (Hb & _ & Hleave).
  destruct (Hleave Red Hseat) as [Hthrown _].
  split; [exact reachable_started|]. split; [exact Hseat|].
  split; [exact Hthrown|exact Hb].
Defined.

(** X20. At a reachable game, when a player's [_join] is accepted and the
    player then leaves, the seats, the status, the move log, the first
    mover, the winner and the board are as before the join; what remains
    of the visit is the ready flag of the seat the player took, now
    [false], the other flag being as before. *)
Theorem join_then_leave (g : ConnectFourGame) (player : Player.t) :
  reachable g → returns (_join player) g = true →
  let s := state g in
  let g1 := after (_join player) g in
  let g2 := after (_leave player) g1 in
  let s2 := state g2 in
  returns (_leave player) g1 = true
  ∧ red s2 = red s ∧ yellow s2 = yellow s ∧ status s2 = status s
  ∧ moves s2 = moves s ∧ firstPlayer s2 = firstPlayer s ∧ winner s2 = winner s
  ∧ _board g2 = _board g
  ∧ (∃ c, seat c (state g1) = Some (Player.id player)
          ∧ ready c s2 = Some false
          ∧ ready (opposite c) s2 = ready (opposite c) s).
Proof.
  intros [[Hseats _ _ _ _ _] _]%reachable_Inv Hret s g1 g2 s2.
  destruct (join_returns player g Hret) as (Hseated & Hfull & Hafter).
  destruct (not_full_free _ Hseats Hfull) as [Hwait Hfree].
  pose proof (joinSeat_free g (Player.id player) Hfree) as Hseat.
  subst s2 g2 g1. rewrite Hafter.
  unfold returns, after, call. rewrite leave_run. cbn [this state with_state].
  unfold seated in *. apply orb_false_elim in Hseated as [Hr Hy].
  apply bool_decide_eq_false in Hr, Hy.
  unfold joinState, leaveState, clearRed, clearYellow.
  subst s. destruct (joinSeat g (Player.id player)) eqn:Hc;
    destruct (state g) as [ms st fp r y rr yr w]; cbn in *; subst.
  - repeat (case_bool_decide; cbn in * ); try congruence.
    all: repeat split; try done; by exists Red.
  - repeat (case_bool_decide; cbn in * ); try congruence.
    all: repeat split; try done; by exists Yellow.
Qed.

Lemma join_then_leave_witness :
  reachable carolSeated
  ∧ returns (_join alice) carolSeated = true
  ∧ returns (_leave alice) (after (_join alice) carolSeated) = true
  ∧ yellow (state (after (_leave alice) (after (_join alice) carolSeated)))
    = yellow (state carolSeated).
Proof.
  assert (returns (_join alice) carolSeated = true) as Hret
    by (vm_compute; reflexivity).
  destruct (join_then_leave carolSeated alice reachable_carolSeated Hret)
    as (Hleave & _ & Hy & _).
  split; [exact reachable_carolSeated|]. split; [exact Hret|].
  split; [exact Hleave|exact Hy].
Defined.

(** ** ApplyMove *)

(** X9. At a game within its types [applyMove] checks in this order: the
    status (GAME_NOT_IN_PROGRESS), the player's seat (PLAYER_NOT_IN_GAME),
    the turn (MOVE_NOT_YOUR_TURN), the board position
    (BOARD_POSITION_NOT_VALID); it throws the error of the first check that
    fails and returns when none does. *)
Theorem applyMove_error_cases (g : ConnectFourGame) (mv : GameMove) :
  well_typed g →
  thrown (applyMove mv) g =
  if bool_decide (status (state g) ≠ IN_PROGRESS)
  then Some (InvalidParametersError GAME_NOT_IN_PROGRESS_MESSAGE)
  else if bool_decide (red (state g) ≠ Some (playerID mv)
                       ∧ yellow (state g) ≠ Some (playerID mv))
  then Some (InvalidParametersError PLAYER_NOT_IN_GAME_MESSAGE)
  else if negb (_isTurn g mv)
  then Some (InvalidParametersError MOVE_NOT_YOUR_TURN_MESSAGE)
  else if negb (_checkValidBoardPosition g mv)
  then Some (InvalidParametersError BOARD_POSITION_NOT_VALID_MESSAGE)
  else None.
Proof.
  intros Hg. unfold thrown. rewrite applyMove_run by done.
  pose proof (isTurn_seated g mv) as Hturn.
  unfold accepts, seated in *.
  destruct (_isTurn g mv), (_checkValidBoardPosition g mv);
    repeat (case_bool_decide; cbn in * ); try done; try tauto.
  all: specialize (Hturn eq_refl); discriminate.
Qed.

Lemma applyMove_error_cases_witness :
  well_typed started
  ∧ thrown (applyMove lastMove) started
    = Some (InvalidParametersError MOVE_NOT_YOUR_TURN_MESSAGE).
Proof.
  split; [exact well_typed_started|].
  etrans; [exact (applyMove_error_cases started lastMove well_typed_started)|].
  vm_compute. reflexivity.
Defined.

(** X10. A move accepted at a reachable game is appended to the log as
    submitted; its cell was empty and now holds its piece, and every other
    cell of the board is as before; seats, ready flags and first mover are
    unchanged. *)
Theorem applyMove_effect (g : ConnectFourGame) (mv : GameMove) :
  reachable g → returns (applyMove mv) g = true →
  let g' := after (applyMove mv) g in
  moves (state g') = moves (state g) ++ [move mv]
  ∧ cellAt (_board g) (row (move mv)) (col (move mv)) = Some CellEmpty
  ∧ (∀ r c, cellAt (_board g') r c =
            if bool_decide (r = row (move mv) ∧ c = col (move mv))
            then Some (pieceCell (gamePiece (move mv)))
            else cellAt (_board g) r c)
  ∧ red (state g') = red (state g)
  ∧ yellow (state g') = yellow (state g)
  ∧ redReady (state g') = redReady (state g)
  ∧ yellowReady (state g') = yellowReady (state g)
  ∧ firstPlayer (state g') = firstPlayer (state g).
Proof.
  intros [Hg _]%reachable_Inv Hacc%applyMove_returns g'. subst g'.
  rewrite applyMove_after, Hacc by by apply Inv0_well_typed.
  destruct (accepts_inv g mv Hacc) as (_ & _ & Htyped & Hcell & _).
  pose proof (moved_board g (move mv) Hg Htyped) as Hboard.
  split; [|split; [done|split]].
  - cbn. apply outcome_frame.
  - intros r c. rewrite Hboard.
    apply cellAt_setCell; [apply Hg|apply Htyped..].
  - cbn. unfold outcome. by repeat js_if.
Qed.

Lemma applyMove_effect_witness :
  reachable sixMoves
  ∧ returns (applyMove winningMove) sixMoves = true
  ∧ moves (state (after (applyMove winningMove) sixMoves))
    = moves (state sixMoves) ++ [move winningMove]
  ∧ cellAt (_board sixMoves) 5 3 = Some CellEmpty.
Proof.
  assert (returns (applyMove winningMove) sixMoves = true) as Hret
    by (vm_compute; reflexivity).
  destruct (applyMove_effect sixMoves winningMove reachable_sixMoves Hret)
    as (Hm & Hcell & _).
  split; [exact reachable_sixMoves|]. split; [exact Hret|].
  split; [exact Hm|exact Hcell].
Defined.

Lemma seat_outcome (c : ConnectFourColor) (m : ConnectFourMove) (b : Board)
    (s : ConnectFourGameState) :
  seat c (outcome m b s) = seat c s.
Proof. destruct c; cbn; apply outcome_frame. Qed.

(** X11. After a move accepted at a reachable game that does not end the
    game, it is the other seat's turn: a further move by the same player is
    rejected with MOVE_NOT_YOUR_TURN, whatever it is. *)
Theorem turns_alternate (g : ConnectFourGame) (mv mv2 : GameMove) :
  reachable g → returns (applyMove mv) g = true →
  let g' := after (applyMove mv) g in
  status (state g') = IN_PROGRESS →
  playerID mv2 = playerID mv →
  thrown (applyMove mv2) g'
  = Some (InvalidParametersError MOVE_NOT_YOUR_TURN_MESSAGE).
Proof.
  intros Hreach Hret g' Hst Hsame.
  assert (reachable g') as Hreach'.
  { apply (reach_call g (ApplyMove mv)); done. }
  apply reachable_Inv in Hreach' as [Hg' _].
  apply reachable_Inv in Hreach as [Hg _].
  apply applyMove_returns in Hret as Hacc.
  destruct (accepts_inv g mv Hacc) as (_ & Hturn & _).
  unfold thrown. rewrite applyMove_run by by apply Inv0_well_typed.
  assert (_isTurn g' mv2 = false) as Hnot.
  { destruct (inv_seats g Hg) as (_ & _ & Hd & _).
    revert Hturn. rewrite !isTurn_eq. subst g'.
    rewrite applyMove_after, Hacc by by apply Inv0_well_typed.
    cbn [moved state].
    destruct (outcome_frame (move mv)
                (replayOnto (_board g) (moves (state g) ++ [move mv]))
                (set_moves (moves (state g) ++ [move mv]) (state g)))
      as (Hm & _ & _ & Hf & _).
    rewrite seat_outcome, Hm, Hf. cbn [moves set_moves firstPlayer].
    rewrite length_app, Nat.add_1_r. unfold activeColor.
    rewrite Nat.even_succ, <- Nat.negb_even. rewrite Hsame.
    intros Hon%bool_decide_eq_true. apply bool_decide_eq_false.
    destruct (Nat.even _), (firstPlayer (state g)); cbn in *;
      destruct Hd; congruence. }
  assert (seated (playerID mv2) (state g') = true) as Hseated.
  { rewrite Hsame. subst g'.
    rewrite applyMove_after, Hacc by by apply Inv0_well_typed.
    cbn [moved state].
    destruct (outcome_frame (move mv)
                (replayOnto (_board g) (moves (state g) ++ [move mv]))
                (set_moves (moves (state g) ++ [move mv]) (state g)))
      as (_ & Hr & Hy & _).
    unfold seated. rewrite Hr, Hy. cbn. by apply isTurn_seated. }
  unfold accepts. rewrite Hnot, Hst, Hseated.
  rewrite bool_decide_eq_true_2 by done. cbn.
  by rewrite bool_decide_eq_false_2 by (intros H; by apply H).
Qed.

Lemma turns_alternate_witness :
  reachable started
  ∧ returns (applyMove openingMove) started = true
  ∧ status (state (after (applyMove openingMove) started)) = IN_PROGRESS
  ∧ playerID winningMove = playerID openingMove
  ∧ thrown (applyMove winningMove) (after (applyMove openingMove) started)
    = Some (InvalidParametersError MOVE_NOT_YOUR_TURN_MESSAGE).
Proof.
  assert (returns (applyMove openingMove) started = true) as Hret
    by (vm_compute; reflexivity).
  assert (status (state (after (applyMove openingMove) started)) = IN_PROGRESS) as Hst
    by (vm_compute; reflexivity).
  split; [exact reachable_started|]. split; [exact Hret|]. split; [exact Hst|].
  split; [reflexivity|].
  exact (turns_alternate started openingMove winningMove reachable_started Hret Hst
           eq_refl).
Defined.

(** ** Columns *)

Lemma checkValidBoardPosition_iff (g : ConnectFourGame) (mv : GameMove) :
  _checkValidBoardPosition g mv = true ↔
  (0 ≤ col (move mv) < 7)%Z ∧ (0 ≤ row (move mv) < 6)%Z
  ∧ cellAt (_board g) (row (move mv)) (col (move mv)) = Some CellEmpty
  ∧ (row (move mv) = 5%Z
     ∨ cellAt (_board g) (row (move mv) + 1) (col (move mv)) ≠ Some CellEmpty).
Proof.
  unfold _checkValidBoardPosition.
  repeat (case_bool_decide; cbn [orb andb]); split.
  all: try discriminate.
  all: try (intros (? & ? & ? & [?|?]); first [ done | lia ]).
  all: intros _; split; [lia|]; split; [lia|]; split; [done|].
  - by right.
  - destruct (decide (row (move mv) = 5%Z)); [by left|done].
Qed.

(** Under gravity, every cell below a disc holds a disc. *)
Lemma gravity_below (b : Board) (r c : Z) (x : Cell) (n : nat) :
  board_ok b → gravity b →
  cellAt b r c = Some x → x ≠ CellEmpty → (r + Z.of_nat n ≤ 5)%Z →
  ∃ y, cellAt b (r + Z.of_nat n) c = Some y ∧ y ≠ CellEmpty.
Proof.
  intros Hb Hgrav Hx Hne. induction n as [|n IH]; intros Hn.
  - exists x. by rewrite Z.add_0_r.
  - destruct IH as (y & Hy & Hyne); [lia|].
    apply cellAt_range in Hx as Hrange; [|done].
    destruct (cellAt_in_range b (r + Z.of_nat (S n)) c Hb) as [z Hz]; [lia..|].
    exists z. split; [done|].
    apply (Hgrav (r + Z.of_nat n)%Z c y z); try done.
    by replace (r + Z.of_nat n + 1)%Z with (r + Z.of_nat (S n))%Z by lia.
Qed.

(** Above the floor, an empty cell has a placeable cell at or below it. *)
Lemma landing_row_exists (b : Board) (c : Z) (n : nat) (r : Z) :
  board_ok b → (0 ≤ c < 7)%Z → (0 ≤ r)%Z → (r + Z.of_nat n = 5)%Z →
  cellAt b r c = Some CellEmpty →
  ∃ r', (r ≤ r' ≤ 5)%Z ∧ cellAt b r' c = Some CellEmpty
        ∧ (r' = 5%Z ∨ cellAt b (r' + 1) c ≠ Some CellEmpty).
Proof.
  intros Hb Hc. revert r. induction n as [|n IH]; intros r Hr Hn Hempty.
  - exists r. split; [lia|]. split; [done|]. left. lia.
  - destruct (decide (cellAt b (r + 1) c = Some CellEmpty)) as [Hbelow|Hbelow].
    + destruct (IH (r + 1)%Z) as (r' & Hr' & Hcell & Hfloor); [lia..|done|].
      exists r'. split; [lia|done].
    + exists r. split; [lia|]. split; [done|]. by right.
Qed.

(** X18. In every column of a reachable board, [_checkValidBoardPosition]
    accepts exactly one row when the top cell of the column is empty, the
    same row for every move on that column, and no row at all when the top
    cell holds a disc. *)
Theorem one_landing_row_per_column (g : ConnectFourGame) (c : Z) :
  reachable g → (0 ≤ c < 7)%Z →
  (cellAt (_board g) 0 c = Some CellEmpty →
   ∃ r, ∀ mv, col (move mv) = c →
     (_checkValidBoardPosition g mv = true ↔ row (move mv) = r))
  ∧ (cellAt (_board g) 0 c ≠ Some CellEmpty →
     ∀ mv, col (move mv) = c → _checkValidBoardPosition g mv = false).
Proof.
  intros [[_ Hb _ _ _ Hgrav] _]%reachable_Inv Hc. split.
  - intros Htop.
    destruct (landing_row_exists (_board g) c 5 0 Hb Hc) as (r & Hr & Hcell & Hfloor);
      [lia..|done|].
    exists r. intros mv Hcol. rewrite checkValidBoardPosition_iff, Hcol. split.
    + intros (_ & Hrow & Hcell' & Hfloor').
      destruct (Z.lt_total (row (move mv)) r) as [Hlt|[Heq|Hgt]]; [|done|].
      * destruct Hfloor' as [|Hbelow]; [lia|].
        destruct (cellAt_in_range (_board g) (row (move mv) + 1) c Hb) as [x Hx];
          [lia..|].
        destruct (gravity_below (_board g) (row (move mv) + 1) c x
                    (Z.to_nat (r - (row (move mv) + 1))) Hb Hgrav Hx)
          as (y & Hy & Hyne); [congruence|lia|].
        replace (row (move mv) + 1 + Z.of_nat (Z.to_nat (r - (row (move mv) + 1))))%Z
          with r in Hy by lia.
        congruence.
      * destruct Hfloor as [|Hbelow]; [lia|].
        destruct (cellAt_in_range (_board g) (r + 1) c Hb) as [x Hx]; [lia..|].
        destruct (gravity_below (_board g) (r + 1) c x
                    (Z.to_nat (row (move mv) - (r + 1))) Hb Hgrav Hx)
          as (y & Hy & Hyne); [congruence|lia|].
        replace (r + 1 + Z.of_nat (Z.to_nat (row (move mv) - (r + 1))))%Z
          with (row (move mv)) in Hy by lia.
        congruence.
    + intros ->. repeat split; try done; lia.
  - intros Htop mv Hcol. apply not_true_is_false.
    rewrite checkValidBoardPosition_iff, Hcol. intros (_ & Hrow & Hcell & _).
    destruct (cellAt_in_range (_board g) 0 c Hb) as [x Hx]; [lia..|].
    destruct (gravity_below (_board g) 0 c x (Z.to_nat (row (move mv))) Hb Hgrav Hx)
      as (y & Hy & Hyne); [congruence|lia|].
    replace (0 + Z.of_nat (Z.to_nat (row (move mv))))%Z
      with (row (move mv)) in Hy by lia.
    congruence.
Qed.

Lemma one_landing_row_per_column_witness :
  reachable sixMoves
  ∧ (0 ≤ 0 < 7)%Z
  ∧ cellAt (_board sixMoves) 0 0 = Some CellEmpty
  ∧ ∃ r, ∀ mv, col (move mv) = 0%Z →
      (_checkValidBoardPosition sixMoves mv = true ↔ row (move mv) = r).
Proof.
  assert (0 ≤ 0 < 7)%Z as Hc by lia.
  assert (cellAt (_board sixMoves) 0 0 = Some CellEmpty) as Htop
    by (vm_compute; reflexivity).
  destruct (one_landing_row_per_column sixMoves 0 reachable_sixMoves Hc) as [Hone _].
  split; [exact reachable_sixMoves|]. split; [exact Hc|].
  split; [exact Htop|exact (Hone Htop)].
Defined.

(** ** The detector and the replay on their own *)

(** X19. On any six-by-seven board and at any state [_determineWinner]
    returns without throwing.  When the board holds a run of four, of
    whatever color, it sets the status to OVER and the winner to the
    occupant of the seat named by the move's [gamePiece]; when it holds
    none, the log has 42 moves and some cell holds a disc, it sets OVER
    with no winner; otherwise it leaves the state as it is.  Nothing but
    status and winner is ever changed. *)
Theorem determineWinner_contract (m : ConnectFourMove) (b : Board) (g : ConnectFourGame) :
  board_ok b →
  let s := state g in
  let g' := after (_determineWinner m b) g in
  returns (_determineWinner m b) g = true
  ∧ g' = with_state (state g') g
  ∧ ((∃ x, hasRun b x) →
     state g' = set_winner (seat (gamePiece m) s) (set_status OVER s))
  ∧ ((∀ x, ¬ hasRun b x) → length (moves s) = 42%nat →
     (∃ r c x, cellAt b r c = Some x ∧ x ≠ CellEmpty) →
     state g' = set_winner None (set_status OVER s))
  ∧ ((∀ x, ¬ hasRun b x) →
     length (moves s) ≠ 42%nat ∨ (∀ r c x, cellAt b r c = Some x → x = CellEmpty) →
     state g' = s).
Proof.
  intros Hb s g'. subst g' s.
  unfold returns, after, call. rewrite determineWinner_run. cbn [fst snd this state with_state].
  split; [done|]. split; [by destruct g|].
  unfold outcome. split; [|split].
  - intros Hrun. by rewrite (proj2 (anyWin_iff b Hb) Hrun).
  - intros Hnone Hlen (r & c & x & Hcell & Hx).
    destruct (anyWin b) eqn:Hwin.
    { apply anyWin_iff in Hwin as [y Hy]; [|done]. by destruct (Hnone y). }
    by rewrite (tieScan_true b _ r c x).
  - intros Hnone Hwhy.
    destruct (anyWin b) eqn:Hwin.
    { apply anyWin_iff in Hwin as [y Hy]; [|done]. by destruct (Hnone y). }
    destruct (tieScan b (length (moves (state g)))) eqn:Htie; [|done].
    exfalso. unfold tieScan in Htie.
    apply existsb_seq in Htie as (i & Hi & Hrow).
    apply existsb_seq in Hrow as (j & Hj & Hcell).
    apply andb_prop in Hcell as [Hne%bool_decide_eq_true Hlen%bool_decide_eq_true].
    destruct Hwhy as [Hlen'|Hempty]; [done|].
    destruct (cellAt_in_range b (Z.of_nat i) (Z.of_nat j) Hb) as [x Hx]; [lia..|].
    rewrite Hx in Hne. apply Hempty in Hx. congruence.
Qed.

Lemma determineWinner_contract_witness :
  board_ok (_board sixMoves)
  ∧ returns (_determineWinner (move winningMove) (_board sixMoves)) sixMoves = true
  ∧ state (after (_determineWinner (move winningMove) (_board sixMoves)) sixMoves)
    = state sixMoves.
Proof.
  assert (board_ok (_board sixMoves)) as Hb
    by (split; [vm_compute; reflexivity|vm_compute; repeat constructor]).
  destruct (determineWinner_contract (move winningMove) (_board sixMoves) sixMoves Hb)
    as (Hret & _ & _ & _ & Hsame).
  split; [exact Hb|]. split; [exact Hret|].
  apply Hsame.
  - intros x Hrun.
    assert (anyWin (_board sixMoves) = true) as Hwin
      by (apply anyWin_iff; [exact Hb|by exists x]).
    vm_compute in Hwin. discriminate Hwin.
  - left. vm_compute. discriminate.
Defined.

(** X21. At a reachable game, running [_updateBoard] on the game's own move
    log returns without throwing and leaves the board, and all else, as it
    is. *)
Theorem updateBoard_own_log (g : ConnectFourGame) :
  reachable g →
  call (_updateBoard (moves (state g))) g = (Normal tt, mkWorld g []).
Proof.
  intros [[_ Hb Hlog Hreplay _ _] _]%reachable_Inv.
  unfold call. rewrite updateBoard_run by done. cbn [this constructed].
  rewrite Hreplay at 1. unfold replay.
  rewrite replayOnto_idem by (done || apply board_ok_emptyBoard).
  fold (replay (moves (state g))). rewrite <- Hreplay. by destruct g.
Qed.

Lemma updateBoard_own_log_witness :
  reachable sixMoves
  ∧ call (_updateBoard (moves (state sixMoves))) sixMoves
    = (Normal tt, mkWorld sixMoves []).
Proof.
  split; [exact reachable_sixMoves|].
  exact (updateBoard_own_log sixMoves reachable_sixMoves).
Defined.

(** ** The life of a game *)

Lemma over_full (g : ConnectFourGame) :
  Inv0 g → status (state g) ≠ WAITING_FOR_PLAYERS → full (state g) = true.
Proof.
  intros [Hseats _ _ _ _ _] Hst. rewrite full_decide by done.
  apply bool_decide_eq_true_2. by apply Hseats.
Qed.

(** X12. A reachable game that is OVER stays as it is: no Join, Leave,
    StartGame or ApplyMove, accepted or rejected, changes its state or its
    board. *)
Theorem over_is_final (g : ConnectFourGame) (c : Command) :
  reachable g → status (state g) = OVER →
  state (after (perform c) g) = state g
  ∧ _board (after (perform c) g) = _board g.
Proof.
  intros [Hg _]%reachable_Inv Hover. destruct c as [p|p|p|mv]; cbn [perform].
  - rewrite join_after, over_full by (done || congruence).
    by rewrite orb_true_r.
  - rewrite leave_after. destruct (seated _ _); [|done]. cbn.
    unfold leaveState. by rewrite Hover.
  - rewrite startGame_after, Hover.
    by rewrite bool_decide_eq_false_2.
  - rewrite applyMove_after by by apply Inv0_well_typed.
    unfold accepts. rewrite Hover. by rewrite bool_decide_eq_false_2.
Qed.

Lemma over_is_final_witness :
  reachable wonGame
  ∧ status (state wonGame) = OVER
  ∧ state (after (perform (Leave bob)) wonGame) = state wonGame
  ∧ _board (after (perform (Leave bob)) wonGame) = _board wonGame.
Proof.
  assert (status (state wonGame) = OVER) as Hst by (vm_compute; reflexivity).
  destruct (over_is_final wonGame (Leave bob) reachable_wonGame Hst) as [Hs Hb].
  split; [exact reachable_wonGame|]. split; [exact Hst|].
  split; [exact Hs|exact Hb].
Defined.

(** X13. Along the calls on a reachable game the status only moves as
    follows: it stays, or goes from WAITING_FOR_PLAYERS to
    WAITING_TO_START, from WAITING_TO_START back to WAITING_FOR_PLAYERS or
    on to IN_PROGRESS, or from IN_PROGRESS to OVER. *)
Theorem status_transitions (g : ConnectFourGame) (c : Command) :
  reachable g →
  transition (status (state g)) (status (state (after (perform c) g))) = true.
Proof.
  intros [Hg _]%reachable_Inv.
  assert (∀ s, transition s s = true) as Hrefl by (by intros []).
  destruct c as [p|p|p|mv]; cbn [perform].
  - rewrite join_after.
    destruct (seated _ _); [done|]. destruct (full _) eqn:Hfull; [done|]. cbn.
    destruct (not_full_free _ (inv_seats g Hg) Hfull) as [Hwait _].
    destruct (joinState_frame g (Player.id p)) as (_ & _ & _ & _ & _ & Hst).
    rewrite Hst, Hwait. by case_bool_decide.
  - rewrite leave_after. destruct (seated _ _); [|done]. cbn.
    unfold leaveState, clearRed, clearYellow.
    destruct (state g) as [ms [] fp r y rr yr w]; cbn;
      repeat (case_bool_decide; cbn); done.
  - rewrite startGame_after.
    case_bool_decide as Hwait; [|done]. destruct (seated _ _); [|done]. cbn.
    destruct (startState_frame g (Player.id p)) as (_ & _ & _ & _ & [Hst|Hst]);
      rewrite Hst, ?Hwait; done.
  - rewrite applyMove_after by by apply Inv0_well_typed.
    destruct (accepts g mv) eqn:Hacc; [|done].
    destruct (accepts_inv g mv Hacc) as (Hst & _).
    cbn [moved state].
    destruct (outcome_frame (move mv)
                (replayOnto (_board g) (moves (state g) ++ [move mv]))
                (set_moves (moves (state g) ++ [move mv]) (state g)))
      as (_ & _ & _ & _ & [Ho|Ho] & _); cbn in Ho; rewrite Ho, ?Hst; done.
Qed.

Lemma status_transitions_witness :
  reachable priorGame
  ∧ transition (status (state priorGame))
      (status (state (after (perform (Leave bob)) priorGame))) = true.
Proof.
  split; [exact reachable_priorGame|].
  exact (status_transitions priorGame (Leave bob) reachable_priorGame).
Defined.

(** X14. The move log of a reachable game never holds more than 42 moves,
    and a game whose log holds 42 is OVER. *)
Theorem log_is_bounded (g : ConnectFourGame) :
  reachable g →
  (length (moves (state g)) ≤ 42)%nat
  ∧ (length (moves (state g)) = 42%nat → status (state g) = OVER).
Proof. intros []%reachable_Inv1. done. Qed.

Lemma log_is_bounded_witness :
  reachable fortyOne ∧ (length (moves (state fortyOne)) ≤ 42)%nat.
Proof.
  split; [exact reachable_fortyOne|].
  exact (proj1 (log_is_bounded fortyOne reachable_fortyOne)).
Defined.

(** X15. In a reachable game a winner is only ever set when the game is
    OVER, and the winner is then one of the two seated players. *)
Theorem winner_only_when_over (g : ConnectFourGame) (w : PlayerID) :
  reachable g → winner (state g) = Some w →
  status (state g) = OVER
  ∧ (red (state g) = Some w ∨ yellow (state g) = Some w).
Proof.
  intros [Hw Hws _ _ _]%reachable_Inv1 Hwin. split.
  - destruct (decide (status (state g) = OVER)) as [|Hne]; [done|].
    rewrite Hw in Hwin by done. discriminate.
  - destruct Hws as [Hnone|[Hr|Hy]]; [congruence|left|right]; congruence.
Qed.

Lemma winner_only_when_over_witness :
  reachable wonGame
  ∧ winner (state wonGame) = Some "alice"
  ∧ status (state wonGame) = OVER
  ∧ (red (state wonGame) = Some "alice" ∨ yellow (state wonGame) = Some "alice").
Proof.
  assert (winner (state wonGame) = Some "alice") as Hw by (vm_compute; reflexivity).
  destruct (winner_only_when_over wonGame "alice" reachable_wonGame Hw) as [Hst Hseat].
  split; [exact reachable_wonGame|]. split; [exact Hw|].
  split; [exact Hst|exact Hseat].
Defined.

(** X16. A reachable game that has not started (WAITING_FOR_PLAYERS or
    WAITING_TO_START) has an empty move log and an empty board. *)
Theorem no_moves_before_start (g : ConnectFourGame) :
  reachable g →
  status (state g) = WAITING_FOR_PLAYERS ∨ status (state g) = WAITING_TO_START →
  moves (state g) = [] ∧ _board g = emptyBoard.
Proof.
  intros Hreach Hst.
  pose proof (reachable_Inv1 g Hreach) as [_ _ Hnm _ _].
  apply reachable_Inv in Hreach as [[_ _ _ Hreplay _ _] _].
  split; [by apply Hnm|]. rewrite Hreplay, Hnm by done. done.
Qed.

Lemma no_moves_before_start_witness :
  reachable priorGame
  ∧ status (state priorGame) = WAITING_TO_START
  ∧ moves (state priorGame) = []
  ∧ _board priorGame = emptyBoard.
Proof.
  assert (status (state priorGame) = WAITING_TO_START) as Hst
    by (vm_compute; reflexivity).
  destruct (no_moves_before_start priorGame reachable_priorGame (or_intror Hst))
    as [Hm Hb].
  split; [exact reachable_priorGame|]. split; [exact Hst|].
  split; [exact Hm|exact Hb].
Defined.

(** X17. In a reachable game the seated ids are non-empty and nobody holds
    both seats; and once the game has left WAITING_FOR_PLAYERS both seats
    are taken, by two different players. *)
Theorem seats_are_proper (g : ConnectFourGame) :
  reachable g →
  (∀ i, red (state g) = Some i ∨ yellow (state g) = Some i → i ≠ EmptyString)
  ∧ (∀ i, red (state g) = Some i → yellow (state g) ≠ Some i)
  ∧ (status (state g) ≠ WAITING_FOR_PLAYERS →
     ∃ r y, red (state g) = Some r ∧ yellow (state g) = Some y ∧ r ≠ y).
Proof.
  intros [[(Hr & Hy & Hd & Hs) _ _ _ _ _] _]%reachable_Inv.
  split; [|split].
  - intros i [Hi|Hi] Hne; subst i; [by apply Hr|by apply Hy].
  - intros i Hi Hyi. destruct Hd as [Hd|Hd]; [congruence|].
    apply Hd. by rewrite Hi, Hyi.
  - intros Hst. destruct (Hs Hst) as [Hr' Hy'].
    destruct (red (state g)) as [r|] eqn:Er; [|done].
    destruct (yellow (state g)) as [y|] eqn:Ey; [|done].
    exists r, y. repeat split. intros ->. by destruct Hd.
Qed.

Lemma seats_are_proper_witness :
  reachable started
  ∧ status (state started) ≠ WAITING_FOR_PLAYERS
  ∧ ∃ r y, red (state started) = Some r ∧ yellow (state started) = Some y ∧ r ≠ y.
Proof.
  assert (status (state started) ≠ WAITING_FOR_PLAYERS) as Hst
    by (vm_compute; discriminate).
  destruct (seats_are_proper started reachable_started) as (_ & _ & Hboth).
  split; [exact reachable_started|]. split; [exact Hst|exact (Hboth Hst)].
Defined.

(** ** Counting discs *)

Lemma discs_cons (cells : list Cell) (b : Board) :
  discs (cells :: b) = (length (filter (λ x, x ≠ CellEmpty) cells) + discs b)%nat.
Proof. unfold discs. cbn. by rewrite filter_app, length_app. Qed.

Lemma filter_insert_empty (cells : list Cell) (j : nat) (x : Cell) :
  cells !! j = Some CellEmpty → x ≠ CellEmpty →
  length (filter (λ x, x ≠ CellEmpty) (<[j:=x]> cells))
  = S (length (filter (λ x, x ≠ CellEmpty) cells)).
Proof.
  intros Hj Hx. revert j Hj. induction cells as [|y cells IH]; intros [|j] Hj; try done.
  - cbn in Hj. injection Hj as ->.
    change (<[0%nat:=x]> (CellEmpty :: cells)) with (x :: cells).
    rewrite !filter_cons.
    destruct (decide (x ≠ CellEmpty)); [|done].
    by destruct (decide (CellEmpty ≠ CellEmpty)).
  - cbn in Hj. change (<[S j:=x]> (y :: cells)) with (y :: <[j:=x]> cells).
    rewrite !filter_cons.
    destruct (decide (y ≠ CellEmpty)); cbn [length]; by rewrite IH.
Qed.

Lemma discs_insert (b : Board) (i : nat) (cells cells' : list Cell) :
  b !! i = Some cells →
  length (filter (λ x, x ≠ CellEmpty) cells')
  = S (length (filter (λ x, x ≠ CellEmpty) cells)) →
  discs (<[i:=cells']> b) = S (discs b).
Proof.
  intros Hi Hcells. revert i Hi. induction b as [|row b IH]; intros [|i] Hi; try done.
  - cbn in Hi. injection Hi as ->.
    change (<[0%nat:=cells']> (cells :: b)) with (cells' :: b).
    rewrite !discs_cons. lia.
  - cbn in Hi. change (<[S i:=cells']> (row :: b)) with (row :: <[i:=cells']> b).
    rewrite !discs_cons, (IH i Hi). lia.
Qed.

Lemma discs_setCell (b : Board) (column row : Z) (color : ConnectFourColor) :
  cellAt b row column = Some CellEmpty →
  discs (setCell b column row color) = S (discs b).
Proof.
  intros Hcell. unfold cellAt, js_get in Hcell.
  destruct (decide (0 ≤ row)%Z) as [Hrow|Hrow];
    [rewrite (bool_decide_eq_true_2 (0 ≤ row)%Z) in Hcell by done
    |rewrite (bool_decide_eq_false_2 (0 ≤ row)%Z) in Hcell by done; by cbn in Hcell].
  destruct (b !! Z.to_nat row) as [cells|] eqn:Hcells; cbn in Hcell; [|done].
  destruct (decide (0 ≤ column)%Z) as [Hcol|Hcol];
    [rewrite (bool_decide_eq_true_2 (0 ≤ column)%Z) in Hcell by done
    |by rewrite (bool_decide_eq_false_2 (0 ≤ column)%Z) in Hcell by done].
  unfold setCell, js_get, js_set.
  rewrite (bool_decide_eq_true_2 (0 ≤ row)%Z), (bool_decide_eq_true_2 (0 ≤ column)%Z)
    by done.
  rewrite Hcells.
  apply (discs_insert b _ cells); [done|].
  apply filter_insert_empty; [done|apply pieceCell_nonempty].
Qed.

Lemma discs_emptyBoard : discs emptyBoard = 0%nat.
Proof. reflexivity. Qed.

Lemma perform_discs (c : Command) (g : ConnectFourGame) :
  Inv0 g → discs (_board g) = length (moves (state g)) →
  discs (_board (after (perform c) g)) = length (moves (state (after (perform c) g))).
Proof.
  intros Hg Hdiscs. destruct c as [p|p|p|mv]; cbn [perform].
  - rewrite join_after.
    destruct (seated _ _) eqn:Hseated; [done|].
    destruct (full _) eqn:Hfull; [done|]. cbn [orb].
    destruct (joinState_frame g (Player.id p)) as (Hm & _).
    destruct g. cbn in *. by rewrite Hm.
  - rewrite leave_after.
    destruct (seated _ _) eqn:Hseated; [|done].
    destruct (leaveState_ok (Player.id p) (state g) (inv_seats g Hg) Hseated)
      as (_ & Hm & _).
    destruct g. cbn in *. by rewrite Hm.
  - rewrite startGame_after.
    case_bool_decide as Hwait; [|done]. cbn [andb].
    destruct (seated _ _) eqn:Hseated; [|done].
    destruct (startState_frame g (Player.id p)) as (Hm & _).
    destruct g. cbn in *. by rewrite Hm.
  - rewrite applyMove_after by by apply Inv0_well_typed.
    destruct (accepts g mv) eqn:Hacc; [|done].
    destruct (accepts_inv g mv Hacc) as (_ & _ & Htyped & Hcell & _).
    rewrite (moved_board g (move mv) Hg Htyped).
    rewrite discs_setCell by done. unfold moved. cbn [state].
    destruct (outcome_frame (move mv)
                (replayOnto (_board g) (moves (state g) ++ [move mv]))
                (set_moves (moves (state g) ++ [move mv]) (state g)))
      as (Hm & _).
    rewrite Hm. cbn. rewrite length_app. cbn. lia.
Qed.

Lemma filter_all (cells : list Cell) :
  length (filter (λ x, x ≠ CellEmpty) cells) = length cells ↔
  Forall (λ x, x ≠ CellEmpty) cells.
Proof.
  induction cells as [|x cells IH]; [by split|].
  rewrite filter_cons, Forall_cons. destruct (decide (x ≠ CellEmpty)) as [Hx|Hx]; cbn.
  - rewrite <- IH. split; [intros [= ?]; by split|intros [_ ->]; done].
  - pose proof (length_filter (λ x, x ≠ CellEmpty) cells). split; [lia|tauto].
Qed.

Lemma board_ok_concat (b : Board) : board_ok b → length (concat b) = 42%nat.
Proof.
  intros [Hlen Hrows].
  do 7 (destruct b as [|? b]; try discriminate).
  repeat match goal with H : Forall _ (_ :: _) |- _ => apply Forall_cons in H as [? H] end.
  cbn. rewrite !length_app. cbn. lia.
Qed.

Lemma cellAt_concat (b : Board) (x : Cell) :
  board_ok b → x ∈ concat b ↔ ∃ r c, cellAt b r c = Some x.
Proof.
  intros Hb. rewrite list_elem_of_In, in_concat. split.
  - intros (cells & [i Hi]%list_elem_of_In%list_elem_of_lookup
                  & [j Hj]%list_elem_of_In%list_elem_of_lookup).
    exists (Z.of_nat i), (Z.of_nat j). rewrite cellAt_nat, Hi. done.
  - intros (r & c & Hcell). apply cellAt_range in Hcell as Hrange; [|done].
    replace r with (Z.of_nat (Z.to_nat r)) in Hcell by lia.
    replace c with (Z.of_nat (Z.to_nat c)) in Hcell by lia.
    rewrite cellAt_nat in Hcell.
    destruct (b !! Z.to_nat r) as [cells|] eqn:Hcells; [|done]. cbn in Hcell.
    exists cells. split; apply list_elem_of_In; by eapply list_elem_of_lookup_2.
Qed.

Lemma reachable_discs (g : ConnectFourGame) :
  reachable g → discs (_board g) = length (moves (state g)).
Proof.
  induction 1 as [|l _ _|g c Hg IH Hc|g l c Hg IH Hl Hc].
  - reflexivity.
  - reflexivity.
  - apply perform_discs; [|done]. by apply reachable_Inv.
  - by destruct g.
Qed.

(** X24. The board of a reachable game holds exactly as many discs as the
    log has moves: every accepted move adds one disc, and no other call
    adds or removes one. *)
Theorem discs_match_log (g : ConnectFourGame) :
  reachable g → discs (_board g) = length (moves (state g)).
Proof. apply reachable_discs. Qed.

Lemma discs_match_log_witness :
  reachable sixMoves ∧ discs (_board sixMoves) = length (moves (state sixMoves)).
Proof.
  split; [exact reachable_sixMoves|].
  exact (discs_match_log sixMoves reachable_sixMoves).
Defined.

(** X25. In a reachable game the log holds 42 moves exactly when no cell
    of the board is empty: the count [_determineWinner] takes for a tie is
    that of a full board. *)
Theorem full_board_iff_42_moves (g : ConnectFourGame) :
  reachable g →
  length (moves (state g)) = 42%nat ↔
  ∀ r c, cellAt (_board g) r c ≠ Some CellEmpty.
Proof.
  intros Hg. pose proof (reachable_Inv g Hg) as [[_ Hb _ _ _ _] _].
  rewrite <- (reachable_discs g Hg).
  unfold discs. rewrite <- (board_ok_concat _ Hb), filter_all, list.Forall_forall.
  split.
  - intros Hall r c Hcell. apply (Hall CellEmpty); [|done].
    apply cellAt_concat; eauto.
  - intros Hnone x [r [c Hcell]]%cellAt_concat; [|done]. intros ->.
    by apply (Hnone r c).
Qed.

Lemma full_board_iff_42_moves_witness :
  reachable sixMoves
  ∧ (length (moves (state sixMoves)) = 42%nat ↔
     ∀ r c, cellAt (_board sixMoves) r c ≠ Some CellEmpty).
Proof.
  split; [exact reachable_sixMoves|].
  exact (full_board_iff_42_moves sixMoves reachable_sixMoves).
Defined.
